(** * Queue migration for RabbitMQ: a shallow embedding and its properties

    The development follows the Python sources file by file:
    - [utils]             utils.py (capability tables, argument filtering)
    - [message_utils]     message_utils.py (the relocation loop)
    - [queue_utils]       queue_utils.py (control-plane helpers)
    - [migration_planner] migration_planner.py (feasibility rules)
    - [queue_migrator]    queue_migrator.py (the orchestrator)

    Python dictionaries are finite maps with string keys ([gmap string _]);
    dictionaries that the code copies and then mutates live in an explicit
    object store, so that aliasing is visible.  Calls that leave the process
    (the management API, the AMQP relocation, logging, stdout) are operations
    of a small program monad that is run against an arbitrary environment. *)

From Stdlib Require Import ZArith String Ascii List Bool Lia.
From stdpp Require Import base option list strings gmap fin_maps pretty.

Set Default Proof Using "Type".
Set Warnings "-register-all".
Local Open Scope Z_scope.

(** ** config/config.py is deployment data, not code: its constants are
    the fields of a configuration that every definition takes implicitly. *)
Class Config := {
  RABBITMQ_HOST : string;
  RABBITMQ_USER : string;
  RABBITMQ_PASS : string;
  HOST : string
}.

(** ** JSON values carried by queue arguments and policy definitions.
    JSON numbers are restricted to integers. *)
Inductive value : Type :=
| VNull
| VBool (b : bool)
| VNum (z : Z)
| VStr (s : string)
| VArr (l : list value)
| VObj (l : list (string * value)).

(** Python's [str.__bool__]: the empty string is falsy; [None] is falsy. *)
Definition str_truthy (s : string) : bool :=
  match s with EmptyString => false | String _ _ => true end.

Definition opt_str_truthy (o : option string) : bool :=
  match o with None => false | Some s => str_truthy s end.

(** Python's [x in xs] for a list of strings. *)
Fixpoint str_in (x : string) (xs : list string) : bool :=
  match xs with
  | [] => false
  | y :: ys => String.eqb x y || str_in x ys
  end.

(** Python's [x in xs] for a list of integers. *)
Fixpoint int_in (x : Z) (xs : list Z) : bool :=
  match xs with
  | [] => false
  | y :: ys => Z.eqb x y || int_in x ys
  end.

(** [repr] of a list of plain ASCII strings that hold no quote and no
    backslash, as the f-strings print the removed keys: ['a', 'b']. *)
Fixpoint repr_items (xs : list string) : string :=
  match xs with
  | [] => ""
  | [x] => "'" +:+ x +:+ "'"
  | x :: rest => "'" +:+ x +:+ "', " +:+ repr_items rest
  end.

Definition repr_list (xs : list string) : string := "[" +:+ repr_items xs +:+ "]".

(** Python's [str.capitalize] on ASCII text: the first character in upper
    case, the others in lower case. *)
Definition ascii_upper (c : ascii) : ascii :=
  let n := nat_of_ascii c in
  if ((97 <=? n) && (n <=? 122))%nat then ascii_of_nat (n - 32) else c.

Definition ascii_lower (c : ascii) : ascii :=
  let n := nat_of_ascii c in
  if ((65 <=? n) && (n <=? 90))%nat then ascii_of_nat (n + 32) else c.

Fixpoint lower (s : string) : string :=
  match s with
  | EmptyString => EmptyString
  | String c s' => String (ascii_lower c) (lower s')
  end.

Definition capitalize (s : string) : string :=
  match s with
  | EmptyString => EmptyString
  | String c s' => String (ascii_upper c) (lower s')
  end.

(** ** Documents of the management API, as Python reads them: a missing key
    is [None], so that [d.get(key, default)] is [default default (key d)]. *)
Record queue_document := {
  doc_type : option string;
  doc_durable : option bool;
  doc_exclusive : option bool;
  doc_auto_delete : option bool;
  doc_arguments : option (gmap string value);
  doc_policy : option string
}.

Record binding := {
  b_source : option string;
  b_routing_key : option string;
  b_arguments : option (gmap string value)
}.

Record policy := {
  p_name : option string;
  p_pattern : option string;
  p_apply_to : option string;
  p_definition : option (gmap string value)
}.

(** The shape of the JSON document a request is answered with. *)
Inductive body_kind := queue_json | bindings_json | policies_json | no_json.

Definition body_type (k : body_kind) : Type :=
  match k with
  | queue_json => queue_document
  | bindings_json => list binding
  | policies_json => list policy
  | no_json => unit
  end.

(** A [requests.Response]. *)
Record response (B : Type) := {
  status_code : Z;
  text : string;
  json : B
}.
Arguments status_code {B} _.
Arguments text {B} _.
Arguments json {B} _.

(** [Response.__bool__] is [Response.ok]: false for 4xx and 5xx. *)
Definition response_ok {B} (r : response B) : bool :=
  negb ((400 <=? status_code r) && (status_code r <? 600)).

(** [response and response.status_code in codes]: the response when the
    test passes. *)
Definition accepted {B} (r : option (response B)) (codes : list Z)
  : option (response B) :=
  match r with
  | None => None
  | Some r' =>
      if response_ok r' && int_in (status_code r') codes then Some r' else None
  end.

(** [response.text if response else dflt] *)
Definition text_if {B} (r : option (response B)) (dflt : string) : string :=
  match r with
  | None => dflt
  | Some r' => if response_ok r' then text r' else dflt
  end.

(** Python's regular expressions. [re.match pattern string] first compiles
    the pattern: [re_compile pattern] is either the message of the
    [re.error] raised for a pattern that Python cannot compile, or the
    matcher of the pattern, which tells whether a string matches it. *)
Class Regex := { re_compile : string -> string + (string -> bool) }.

(** The JSON body of a PUT or POST. *)
Inductive payload :=
| queue_payload (durable : bool) (arguments : gmap string value)
| binding_payload (routing_key : string) (arguments : gmap string value).

(** ** Programs

    The orchestrator talks to the outside through five calls. Each of them
    either returns or raises; [KeyboardInterrupt] can surface in any of
    them. *)
Inductive exn := KeyboardInterrupt | Exception (what : string).

Inductive reply (R : Type) :=
| Returned (r : R)
| Raised (e : exn).
Arguments Returned {R} _.
Arguments Raised {R} _.

Inductive op : Type -> Type :=
| SendApiRequest (k : body_kind) (method url : string) (auth : string * string)
    (headers : option (list (string * string))) (body : option payload)
  : op (option (response (body_type k)))
| MoveMessages (source_queue target_queue queue_type : string)
    (original_args : option (gmap string value)) (vhost : string)
  : op Z
| LogInfo (message : string) : op unit
| LogError (message : string) : op unit
| Print (line : string) : op unit.

Inductive prog (A : Type) : Type :=
| Ret (a : A)
| Raise (e : exn)
| Call {R : Type} (o : op R) (k : reply R -> prog A).
Arguments Ret {A} _.
Arguments Raise {A} _.
Arguments Call {A R} _ _.

Fixpoint bind {A B} (p : prog A) (f : A -> prog B) : prog B :=
  match p with
  | Ret a => f a
  | Raise e => Raise e
  | Call o k => Call o (fun r => bind (k r) f)
  end.

(** A call whose exception, if any, propagates. *)
Definition call {R} (o : op R) : prog R :=
  Call o (fun r => match r with Returned v => Ret v | Raised e => Raise e end).

(** [try: p  except ...: h e]; [h e = None] when no clause matches [e]. *)
Fixpoint try_except {A} (p : prog A) (h : exn -> option (prog A)) : prog A :=
  match p with
  | Ret a => Ret a
  | Raise e => match h e with Some q => q | None => Raise e end
  | Call o k => Call o (fun r => try_except (k r) h)
  end.

(** [if c: p] *)
Definition when (c : bool) (p : prog unit) : prog unit :=
  if c then p else Ret tt.

Global Instance prog_ret : MRet prog := @Ret.
Global Instance prog_bind : MBind prog := fun A B f p => bind p f.

(** What a run leaves behind: every call with its reply, in order. *)
Inductive event : Type :=
| Ev (R : Type) (o : op R) (r : reply R).
Arguments Ev {R} _ _.

(** Running a program against an environment: a state [World] and a handler
    that answers each call. *)
Section run.
Context {World : Type}.
Variable handle : forall R, op R -> World -> reply R * World.

(** How the program ends, and the state of the environment then. *)
Fixpoint run {A} (p : prog A) (w : World) : reply A * World :=
  match p with
  | Ret a => (Returned a, w)
  | Raise e => (Raised e, w)
  | Call o k => let '(r, w1) := handle _ o w in run (k r) w1
  end.

(** The calls it made on the way, with their replies. *)
Fixpoint trace {A} (p : prog A) (w : World) : list event :=
  match p with
  | Ret _ | Raise _ => []
  | Call o k => let '(r, w1) := handle _ o w in Ev o r :: trace (k r) w1
  end.
End run.

(** A program all of whose calls are of the kind [P], whatever the replies. *)
Fixpoint calls_only {A} (P : forall R, op R -> Prop) (p : prog A) : Prop :=
  match p with
  | Ret _ | Raise _ => True
  | Call o k => P _ o /\ forall r, calls_only P (k r)
  end.

(** A program that raises only what one of its calls raised, at once. *)
Fixpoint propagates {A} (p : prog A) : Prop :=
  match p with
  | Ret _ => True
  | Raise _ => False
  | Call o k =>
      (forall v, propagates (k (Returned v)))
      /\ forall e, k (Raised e) = Raise e
  end.

(** Python's [print]. *)
Definition print (line : string) : prog unit := call (Print line).

(** colorama's escape sequences. *)
Definition Fore_RED : string := String "027"%char "[31m".
Definition Style_RESET_ALL : string := String "027"%char "[0m".
Definition newline : string := String "010"%char EmptyString.

(** * logger.py *)
Module logger.
Definition log_info (message : string) : prog unit := call (LogInfo message).
Definition log_error (message : string) : prog unit := call (LogError message).
End logger.

(** * utils.py *)
Module utils.

Definition UNSUPPORTED_FEATURES : gmap string (list string) :=
  {[ "quorum" := [ "exclusive";
                   "auto-delete";
                   "x-max-priority";
                   "x-queue-master-locator";
                   "x-queue-version";
                   "x-queue-mode" ] ]}.

Record supported_settings := {
  ss_durable : bool;
  ss_supported : list string;
  ss_unsupported : list string
}.

Definition SUPPORTED_SETTINGS : gmap string supported_settings :=
  {[ "quorum" := {| ss_durable := true;
                    ss_supported := [ "x-expires";
                                      "x-max-length";
                                      "x-message-ttl";
                                      "x-dead-letter-exchange";
                                      "x-dead-letter-routing-key";
                                      "x-max-length-bytes";
                                      "delivery-limit";
                                      "queue-initial-cluster-size";
                                      "dead-letter-strategy";
                                      "leader-locator" ];
                    ss_unsupported :=
                      default [] (UNSUPPORTED_FEATURES !! "quorum") |} ]}.

(** A dict literal keeps insertion order, and [.items()] iterates in it. *)
Definition UNSUPPORTED_ARGUMENT_VALUES : list (string * list string) :=
  [ ("x-queue-mode", ["lazy"]);
    ("overflow", ["reject-publish-dlx"]) ].

Definition API_HEADERS : list (string * string) :=
  [("Content-Type", "application/json")].

(** Wrapper for making HTTP requests to the RabbitMQ management API. It
    returns the response, the response attached to the failure, or [None];
    this is where the model meets the network. *)
Definition send_api_request (k : body_kind) (method url : string)
    (auth : string * string) (headers : option (list (string * string)))
    (json : option payload) : prog (option (response (body_type k))) :=
  call (SendApiRequest k method url auth headers json).

(** This function builds the AMQP URL for connecting to RabbitMQ. *)
Definition build_amqp_url `{Config} (vhost : string) : string :=
  "amqp://" +:+ RABBITMQ_USER +:+ ":" +:+ RABBITMQ_PASS +:+ "@" +:+ HOST
    +:+ ":5672/" +:+ vhost.

(** *** Dictionaries as objects

    [remove_unsupported_keys] copies its argument and pops keys from the
    copy.  The store maps references to dictionary objects; [None] stands
    for a Python fault (a dangling reference cannot occur in Python, and
    [pop] of an absent key would raise [KeyError]). *)
Section store.
Context {V : Type}.

(** [d.copy()]: a new object with the same items. *)
Definition dict_copy (r : positive) (σ : gmap positive (gmap string V))
  : option (positive * gmap positive (gmap string V)) :=
  d ← σ !! r;
  let r' := fresh (dom σ) in
  Some (r', <[r' := d]> σ).

(** [key in d] *)
Definition dict_contains (key : string) (r : positive)
    (σ : gmap positive (gmap string V)) : option bool :=
  d ← σ !! r;
  Some (bool_decide (is_Some (d !! key))).

(** [d.pop(key)], result dropped. *)
Definition dict_pop (key : string) (r : positive)
    (σ : gmap positive (gmap string V))
  : option (gmap positive (gmap string V)) :=
  d ← σ !! r;
  match d !! key with
  | Some _ => Some (<[r := delete key d]> σ)
  | None => None
  end.

(** The [for key in ...] loop of [remove_unsupported_keys]. *)
Fixpoint remove_loop (keys : list string) (args_copy : positive)
    (removed : list string) (σ : gmap positive (gmap string V))
  : option (list string * gmap positive (gmap string V)) :=
  match keys with
  | [] => Some (removed, σ)
  | key :: keys' =>
      present ← dict_contains key args_copy σ;
      if (present : bool) then
        σ' ← dict_pop key args_copy σ;
        remove_loop keys' args_copy (removed ++ [key]) σ'
      else
        remove_loop keys' args_copy removed σ
  end.

Definition remove_unsupported_keys (arguments : positive)
    (queue_type : string) (σ : gmap positive (gmap string V))
  : option (positive * list string * gmap positive (gmap string V)) :=
  '(args_copy, σ1) ← dict_copy arguments σ;
  '(removed, σ2) ←
    remove_loop (default [] (UNSUPPORTED_FEATURES !! queue_type))
                args_copy [] σ1;
  Some (args_copy, removed, σ2).

(** *** The same function on dictionary values

    What [remove_unsupported_keys] returns, as a function of the
    contents of its argument: callers that only read the returned pair
    can use this form ([remove_unsupported_keys_value_spec] below). *)
Fixpoint remove_loop_value (keys : list string) (args_copy : gmap string V)
    (removed : list string) : gmap string V * list string :=
  match keys with
  | [] => (args_copy, removed)
  | key :: keys' =>
      if bool_decide (is_Some (args_copy !! key)) then
        remove_loop_value keys' (delete key args_copy) (removed ++ [key])
      else
        remove_loop_value keys' args_copy removed
  end.

Definition remove_unsupported_keys_value (arguments : gmap string V)
    (queue_type : string) : gmap string V * list string :=
  remove_loop_value (default [] (UNSUPPORTED_FEATURES !! queue_type))
                    arguments [].
End store.

(** The [for policy in policies] loop of [get_policy_by_name]. *)
Fixpoint policy_named (policies : list policy) (policy_name : string)
  : option policy :=
  match policies with
  | [] => None
  | policy :: rest =>
      if bool_decide (p_name policy = Some policy_name) then Some policy
      else policy_named rest policy_name
  end.

Definition get_policy_by_name `{Config} (vhost : string)
    (policy_name : option string) : prog (option policy) :=
  if negb (opt_str_truthy policy_name) then mret None
  else
    let url := RABBITMQ_HOST +:+ "/api/policies/" +:+ vhost in
    response ← send_api_request policies_json "GET" url
                 (RABBITMQ_USER, RABBITMQ_PASS) None None;
    match accepted response [200] with
    | Some response =>
        let policies := json response in
        mret (policy_named policies (default "" policy_name))
    | None => mret None
    end.

End utils.

(** * message_utils.py *)
Module message_utils.

(** A message as the consumer sees it: AMQP properties and body. *)
Record message := {
  properties : list (string * value);
  body : string
}.

Inductive connection := source_conn | target_conn.

(** What the relocation does on the wire and on stdout, in order. A call
    that can raise carries the text of the exception it raised. *)
Inductive event :=
| BlockingConnection (c : connection) (url : string) (raised : option string)
| confirm_delivery
| queue_declare_passive (queue : string) (raised : option string)
| consume_next (queue : string) (raised : option string)
| delivered (delivery_tag : nat) (m : message)
| inactivity_timeout
| basic_publish (exchange routing_key : string) (m : message)
                (raised : option string)
| basic_ack (delivery_tag : nat)
| basic_nack (delivery_tag : nat) (requeue : bool)
| cancel
| close (c : connection)
| print (s : string)
| log_error (s : string).

(** The faults the broker and the network can inject. *)
Record environment := {
  (** exception raised when opening the given connection, if any *)
  connect_error : connection -> option string;
  (** text of the [ChannelClosedByBroker] raised for a missing queue *)
  missing_queue_error : string -> string;
  (** exception raised by the publish of the message that would be the
      [n+1]-th one moved, if any *)
  publish_error : nat -> message -> option string
}.

(** Publishing through the default exchange appends to the queue named by
    the routing key; a message for a missing queue is dropped. *)
Definition publish (routing_key : string) (m : message)
    (b : gmap string (list message)) : gmap string (list message) :=
  match b !! routing_key with
  | Some q => <[routing_key := q ++ [m]]> b
  | None => b
  end.

(** A delivered message stays at the head of its queue until it is
    acknowledged. *)
Definition ack (queue : string) (b : gmap string (list message))
  : gmap string (list message) :=
  match b !! queue with
  | Some (_ :: rest) => <[queue := rest]> b
  | _ => b
  end.

Inductive loop_exit :=
| returned (result : Z)      (* a [return] inside the [try] *)
| raised_exn (e : string).   (* an exception reaching the outer [except] *)

(** The [for ... in source_channel.consume(...)] loop and what follows it
    inside the [try]. Every iteration takes one unit of [fuel]; [None]
    means the fuel ran out. [messages_moved] messages were acknowledged so
    far on this channel, so the next delivery tag is [messages_moved + 1]. *)
Fixpoint consume_loop (env : environment) (source_queue target_queue : string)
    (batch_size : positive) (fuel : nat) (messages_moved : nat)
    (b : gmap string (list message))
  : option (loop_exit * gmap string (list message) * list event) :=
  match fuel with
  | O => None
  | S fuel' =>
      match b !! source_queue with
      | None =>
          let e := missing_queue_error env source_queue in
          Some (raised_exn e, b, [consume_next source_queue (Some e)])
      | Some [] =>
          (* method is None: inactivity timeout, likely done *)
          Some (returned (Z.of_nat messages_moved), b,
                [ consume_next source_queue None; inactivity_timeout;
                  cancel;
                  print ("Message transfer complete. "
                         +:+ pretty messages_moved
                         +:+ " message(s) moved from '" +:+ source_queue
                         +:+ "' to '" +:+ target_queue +:+ "'.") ])
      | Some (m :: _) =>
          let delivery_tag := S messages_moved in
          match publish_error env messages_moved m with
          | None =>
              let b1 := publish target_queue m b in
              let b2 := ack source_queue b1 in
              let messages_moved' := S messages_moved in
              let progress :=
                if (Z.of_nat messages_moved' mod Z.pos batch_size =? 0)%Z
                then [print ("...migrated " +:+ pretty messages_moved'
                             +:+ " messages so far...")]
                else [] in
              '(r, b', tr) ← consume_loop env source_queue target_queue
                               batch_size fuel' messages_moved' b2;
              Some (r, b',
                    [ consume_next source_queue None;
                      delivered delivery_tag m;
                      basic_publish "" target_queue m None;
                      basic_ack delivery_tag ] ++ progress ++ tr)
          | Some e =>
              Some (returned (-1), b,
                    [ consume_next source_queue None;
                      delivered delivery_tag m;
                      basic_publish "" target_queue m (Some e);
                      basic_nack delivery_tag true;
                      print ("Failed to move message: " +:+ e);
                      cancel ])
          end
      end
  end.

(** The [finally] clause: close whatever was opened. *)
Definition finally_close (source_open target_open : bool) : list event :=
  (if source_open then [close source_conn] else [])
  ++ (if target_open then [close target_conn] else []).

Definition outer_except (e : string) : list event :=
  [print ("Error during message transfer: " +:+ e)].

Definition move_messages `{Config} (env : environment)
    (source_queue target_queue queue_type : string)
    (original_args : option (gmap string value)) (vhost : string)
    (batch_size : positive)
    (fuel : nat) (b : gmap string (list message))
  : option (Z * gmap string (list message) * list event) :=
  let source_url := utils.build_amqp_url vhost in
  let target_url := utils.build_amqp_url vhost in
  let original_args := default ∅ original_args in
  let queue_args := <["x-queue-type" := VStr queue_type]> original_args in
  match connect_error env source_conn with
  | Some e =>
      Some (-1, b,
            BlockingConnection source_conn source_url (Some e)
            :: outer_except e ++ finally_close false false)
  | None =>
  match connect_error env target_conn with
  | Some e =>
      Some (-1, b,
            [ BlockingConnection source_conn source_url None;
              BlockingConnection target_conn target_url (Some e) ]
            ++ outer_except e ++ finally_close true false)
  | None =>
      let opened :=
        [ BlockingConnection source_conn source_url None;
          BlockingConnection target_conn target_url None;
          confirm_delivery ] in
      match b !! target_queue with
      | None =>
          let e := missing_queue_error env target_queue in
          Some (-1, b,
                opened
                ++ [ queue_declare_passive target_queue (Some e);
                     log_error ("Target queue '" +:+ target_queue
                                +:+ "' does not exist: " +:+ e) ]
                ++ finally_close true true)
      | Some _ =>
          '(r, b', tr) ← consume_loop env source_queue target_queue
                           batch_size fuel 0 b;
          let tr0 := opened ++ [queue_declare_passive target_queue None] in
          match r with
          | returned n => Some (n, b', tr0 ++ tr ++ finally_close true true)
          | raised_exn e =>
              Some (-1, b',
                    tr0 ++ tr ++ outer_except e ++ finally_close true true)
          end
      end
  end
  end.

(** The messages the consumer was handed, in order. *)
Definition delivery_of (e : event) : option message :=
  match e with
  | delivered _ m => Some m
  | _ => None
  end.

Definition deliveries (tr : list event) : list message :=
  omap delivery_of tr.

(** The events by which the relocation takes something from the source
    queue or answers for it. *)
Definition touches_source (e : event) : bool :=
  match e with
  | consume_next _ _ | delivered _ _ | basic_ack _ | basic_nack _ _ => true
  | _ => false
  end.

(** The delivery tags acknowledged, in order. *)
Definition ack_of (e : event) : option nat :=
  match e with
  | basic_ack delivery_tag => Some delivery_tag
  | _ => None
  end.

Definition acks (tr : list event) : list nat := omap ack_of tr.

(** The connections that were opened, and those that were closed. *)
Definition open_of (e : event) : option connection :=
  match e with
  | BlockingConnection c _ None => Some c
  | _ => None
  end.

Definition close_of (e : event) : option connection :=
  match e with
  | close c => Some c
  | _ => None
  end.

End message_utils.

(** * queue_utils.py *)
Module queue_utils.
Import logger.

(** The dictionary [get_queue_settings] returns. *)
Record settings := {
  s_durable : bool;
  s_arguments : gmap string value;
  s_policy : option string   (* This is the policy name *)
}.

Section with_config.
Context `{Config}.

Definition auth : string * string := (RABBITMQ_USER, RABBITMQ_PASS).

Definition queue_url (vhost name : string) : string :=
  RABBITMQ_HOST +:+ "/api/queues/" +:+ vhost +:+ "/" +:+ name.

Definition bindings_url (vhost queue_name : string) : string :=
  RABBITMQ_HOST +:+ "/api/queues/" +:+ vhost +:+ "/" +:+ queue_name
    +:+ "/bindings".

Definition binding_url (vhost exchange_name queue_name : string) : string :=
  RABBITMQ_HOST +:+ "/api/bindings/" +:+ vhost +:+ "/e/" +:+ exchange_name
    +:+ "/q/" +:+ queue_name.

Definition policies_url (vhost : string) : string :=
  RABBITMQ_HOST +:+ "/api/policies/" +:+ vhost.

(** Retrieves the settings of a specific queue from the RabbitMQ
    management API. *)
Definition get_queue_settings (vhost queue_name : string)
  : prog (option settings) :=
  let url := queue_url vhost queue_name in
  response ← utils.send_api_request queue_json "GET" url auth None None;
  match accepted response [200] with
  | Some response =>
      let data := json response in
      mret (Some {| s_durable := default true (doc_durable data);
                    s_arguments := default ∅ (doc_arguments data);
                    s_policy := doc_policy data |})
  | None =>
      log_error ("Unable to retrieve settings for " +:+ vhost +:+ "/"
                 +:+ queue_name +:+ ".");;
      mret None
  end.

(** Creates a new queue in RabbitMQ. *)
Definition create_queue (vhost name : string) (durable : bool)
    (arguments : gmap string value) : prog bool :=
  let url := queue_url vhost name in
  let payload := queue_payload durable arguments in
  response ← utils.send_api_request no_json "PUT" url auth
               (Some utils.API_HEADERS) (Some payload);
  match accepted response [201; 204] with
  | Some _ =>
      log_info ("Queue '" +:+ name +:+ "' created.");;
      mret true
  | None =>
      log_error ("Failed to create queue '" +:+ name +:+ "': "
                 +:+ text_if response "Unknown error");;
      mret false
  end.

Definition delete_queue (vhost name : string) (if_empty : bool)
  : prog bool :=
  let url := queue_url vhost name in
  let url := if if_empty then url +:+ "?if-empty=true" else url in
  response ← utils.send_api_request no_json "DELETE" url auth None None;
  match accepted response [200; 204; 404] with
  | Some _ =>
      log_info ("Queue '" +:+ name +:+ "' deleted (or did not exist).");;
      mret true
  | None =>
      log_error ("Failed to delete queue '" +:+ name +:+ "' (status: "
                 +:+ from_option (fun r => pretty (status_code r)) "None"
                                 response
                 +:+ "): "
                 +:+ from_option (fun r => text r) "None" response);;
      mret false
  end.

(** Retrieves the bindings for a specific queue. *)
Definition get_queue_bindings (vhost queue_name : string)
  : prog (option (list binding)) :=
  let url := bindings_url vhost queue_name in
  response ← utils.send_api_request bindings_json "GET" url auth None None;
  match accepted response [200] with
  | Some response => mret (Some (json response))
  | None =>
      log_error ("Unable to retrieve bindings for " +:+ vhost +:+ "/"
                 +:+ queue_name +:+ ".");;
      mret None
  end.

(** Creates a binding between an exchange and a queue. The success
    message holds the line continuation of the source, with the
    indentation that follows it. *)
Definition create_binding (vhost exchange_name queue_name routing_key : string)
    (arguments : option (gmap string value)) : prog bool :=
  let url := binding_url vhost exchange_name queue_name in
  let payload := binding_payload routing_key (default ∅ arguments) in
  response ← utils.send_api_request no_json "POST" url auth
               (Some utils.API_HEADERS) (Some payload);
  match accepted response [201; 204] with
  | Some _ =>
      log_info ("Binding created: Exchange '" +:+ exchange_name
                +:+ "'                  to Queue '" +:+ queue_name
                +:+ "' with routing key '" +:+ routing_key +:+ "'");;
      mret true
  | None =>
      log_error ("Failed to create binding: Exchange '" +:+ exchange_name
                 +:+ "' to Queue '" +:+ queue_name
                 +:+ "' with routing key '" +:+ routing_key
                 +:+ "'. Error: " +:+ text_if response "Unknown");;
      mret false
  end.

(** The [for policy in policies] loop of [get_queue_policy]; the queue
    name is [None] when the caller had none. [re.match] is called for
    a queue name that is not empty only, and nothing catches the
    [re.error] it raises for a pattern that does not compile. *)
Fixpoint matching_policy `{Regex} (policies : list policy)
    (queue_name : option string) : prog (option policy) :=
  match policies with
  | [] => mret None
  | policy :: rest =>
      match p_pattern policy with
      | Some pattern =>
          if from_option (fun a => str_in a ["queues"; "all"]) false
                         (p_apply_to policy)
          then
            (* If pattern matches the queue name *)
            if opt_str_truthy queue_name then
              match re_compile pattern with
              | inl message => Raise (Exception message)
              | inr matches =>
                  if matches (default "" queue_name)
                  then mret (Some policy)
                  else matching_policy rest queue_name
              end
            else matching_policy rest queue_name
          else matching_policy rest queue_name
      | None => matching_policy rest queue_name
      end
  end.

(** Retrieves the policies defined for a specific vhost in RabbitMQ. *)
Definition get_queue_policy `{Regex} (vhost : string)
    (queue_name : option string) : prog (option policy) :=
  let url := policies_url vhost in
  response ← utils.send_api_request policies_json "GET" url auth None None;
  match accepted response [200] with
  | Some response =>
      let policies := json response in
      matching_policy policies queue_name
  | None => mret None
  end.

(** Returns True if policy has mirroring settings. An empty policy
    dictionary is falsy, and has no definition either. *)
Definition check_mirroring_policy (policy : option policy) : bool :=
  match policy with
  | None => false
  | Some policy =>
      let definition := default ∅ (p_definition policy) in
      let mirroring_keys :=
        [ "ha-mode"; "ha-params"; "ha-sync-mode";
          "ha-promote-on-shutdown"; "ha-promote-on-failure" ] in
      existsb (fun k => bool_decide (is_Some (definition !! k)))
              mirroring_keys
  end.
End with_config.

End queue_utils.

(** * migration_planner.py *)
Module migration_planner.

(** The dictionary the planner builds for a queue. *)
Record queue_info := {
  qi_queue_name : option string;
  qi_vhost : string;
  qi_type : string;
  qi_durable : bool;
  qi_exclusive : bool;
  qi_auto_delete : bool;
  qi_arguments : gmap string value
}.

(** The planner's own copy of the policy lookup. *)
Fixpoint matching_policy `{Regex} (policies : list policy)
    (queue_name : option string) : prog (option policy) :=
  match policies with
  | [] => mret None
  | policy :: rest =>
      match p_pattern policy with
      | Some pattern =>
          if from_option (fun a => str_in a ["queues"; "all"]) false
                         (p_apply_to policy)
          then
            if opt_str_truthy queue_name then
              match re_compile pattern with
              | inl message => Raise (Exception message)
              | inr matches =>
                  if matches (default "" queue_name)
                  then mret (Some policy)
                  else matching_policy rest queue_name
              end
            else matching_policy rest queue_name
          else matching_policy rest queue_name
      | None => matching_policy rest queue_name
      end
  end.

Definition get_queue_policy `{Config} `{Regex} (vhost : string)
    (queue_name : option string) : prog (option policy) :=
  let url := RABBITMQ_HOST +:+ "/api/policies/" +:+ vhost in
  response ← utils.send_api_request policies_json "GET" url
               (RABBITMQ_USER, RABBITMQ_PASS) None None;
  match accepted response [200] with
  | Some response =>
      let policies := json response in
      matching_policy policies queue_name
  | None => mret None
  end.

(** The planner's own copy of [check_mirroring_policy]. *)
Definition check_mirroring_policy (policy : option policy) : bool :=
  match policy with
  | None => false
  | Some policy =>
      let definition := default ∅ (p_definition policy) in
      let mirroring_keys :=
        [ "ha-mode"; "ha-params"; "ha-sync-mode";
          "ha-promote-on-shutdown"; "ha-promote-on-failure" ] in
      existsb (fun k => bool_decide (is_Some (definition !! k)))
              mirroring_keys
  end.

(** [if arg in arguments: warnings.append(...)] for each listed setting. *)
Definition removed_setting_warnings (arguments : gmap string value)
    (warnings : list string) : list string :=
  foldl (fun warnings arg =>
           if bool_decide (is_Some (arguments !! arg))
           then warnings ++ ["Setting '" +:+ arg
                             +:+ "' will be removed during migration."]
           else warnings)
        warnings
        ["x-queue-version"; "x-queue-master-locator"; "x-max-priority"].

(** Detect unsupported argument values. A value equals one of the listed
    strings only when it is that string, which is then what the f-string
    prints. *)
Definition unsupported_value_warnings (arguments : gmap string value)
    (warnings : list string) : list string :=
  foldl (fun warnings '(key, bad_values) =>
           match arguments !! key with
           | Some (VStr s) =>
               if str_in s bad_values
               then warnings ++ ["Argument '" +:+ key +:+ "=" +:+ s
                                 +:+ "' is not compatible with Quorum Queues."]
               else warnings
           | _ => warnings
           end)
        warnings
        utils.UNSUPPORTED_ARGUMENT_VALUES.

(** Identify migration blockers & warnings based on queue settings.
    [None] is the [KeyError] of [SUPPORTED_SETTINGS[target_type]]. *)
Definition detect_migration_blockers (queue_info : queue_info)
    (target_type : string) : option (list string * list string) :=
  settings ← utils.SUPPORTED_SETTINGS !! target_type;
  let blockers := [] in
  let warnings := [] in
  let blockers :=
    if negb (qi_durable queue_info) && utils.ss_durable settings
    then blockers ++ ["Non-durable queues cannot be migrated."]
    else blockers in
  let blockers :=
    if qi_exclusive queue_info
    then blockers ++ ["Exclusive queues are not supported."]
    else blockers in
  let blockers :=
    if qi_auto_delete queue_info
    then blockers ++ ["Auto-delete queues cannot be migrated."]
    else blockers in
  let arguments := qi_arguments queue_info in
  let warnings := removed_setting_warnings arguments warnings in
  let warnings := unsupported_value_warnings arguments warnings in
  Some (blockers, warnings).

End migration_planner.

(** * queue_migrator.py *)
Module queue_migrator.
Import logger queue_utils.

(** [validate_migration(settings, queue_type)]. A dictionary is iterated
    in the order its keys were inserted: [arguments] is
    [settings["arguments"]] as the list of its items in that order. *)
Definition validate_migration (arguments : list (string * value))
    (queue_type : string) : prog (bool * list string) :=
  let unsupported_keys :=
    default [] (utils.UNSUPPORTED_FEATURES !! queue_type) in
  let conflicts := filter (fun k => k ∈ unsupported_keys) arguments.*1 in
  if negb (bool_decide (conflicts = [])) then
    log_error (capitalize queue_type +:+ " queues do not support: "
               +:+ repr_list conflicts);;
    print (Fore_RED +:+ "[Migration halted] " +:+ capitalize queue_type
           +:+ " queues do not support: " +:+ repr_list conflicts
           +:+ ". Investigate manually." +:+ Style_RESET_ALL);;
    mret (false, conflicts)
  else mret (true, []).

Section with_config.
Context `{Config}.

(** [message_utils.move_messages] as the orchestrator sees it: a call
    that returns the number of messages moved, or -1. *)
Definition move_messages (source_queue target_queue queue_type : string)
    (original_args : option (gmap string value)) (vhost : string)
  : prog Z :=
  call (MoveMessages source_queue target_queue queue_type original_args
                     vhost).

(** The [for binding in bindings] loop. [false] says that the loop left
    [migrate_queue] through its [return]. *)
Fixpoint recreate_bindings (vhost name : string) (bindings : list binding)
  : prog bool :=
  match bindings with
  | [] => mret true
  | binding :: rest =>
      let exchange := b_source binding in
      let routing_key := default "" (b_routing_key binding) in
      let arguments := default ∅ (b_arguments binding) in
      if opt_str_truthy exchange then
        created ← create_binding vhost (default "" exchange) name
                    routing_key (Some arguments);
        if negb created then
          log_error ("Failed to recreate binding '" +:+ default "" exchange
                     +:+ "' -> '" +:+ name +:+ "'. Aborting migration.");;
          print "[Migration halted] Could not recreate bindings. Investigate manually.";;
          mret false
        else recreate_bindings vhost name rest
      else recreate_bindings vhost name rest
  end.

(** The body of the [try]. *)
Definition migrate_queue_try (vhost name target_type : string)
  : prog unit :=
  settings ← get_queue_settings vhost name;
  match settings with
  | None =>
      log_error ("Queue '" +:+ name +:+ "' not found in vhost '" +:+ vhost
                 +:+ "'. Aborting.")
  | Some settings =>
  policy ← utils.get_policy_by_name vhost (s_policy settings);
  when (check_mirroring_policy policy)
    (log_info ("Queue '" +:+ name
               +:+ "' has mirroring policy. Remove before migrating."));;
  bindings ← get_queue_bindings vhost name;
  match bindings with
  | None =>
      log_error ("Failed to retrieve bindings for '" +:+ name
                 +:+ "'. Aborting migration.");;
      print ("[Migration halted] Could not retrieve bindings for '"
             +:+ name +:+ "'.")
  | Some bindings =>
  let temp_name := name +:+ "_temp_migrated" in
  let '(args, removed) :=
    utils.remove_unsupported_keys_value (s_arguments settings) target_type in
  when (negb (bool_decide (removed = [])))
    (log_info ("Removed unsupported arguments for " +:+ target_type
               +:+ " queue: " +:+ repr_list removed));;
  (* Set the x-queue-type for the temp queue *)
  let args := <["x-queue-type" := VStr target_type]> args in
  created ← create_queue vhost temp_name (s_durable settings) args;
  if negb created then
    log_error "Failed to create temporary queue. Aborting."
  else
  messages_moved ← move_messages name temp_name target_type
                     (Some (s_arguments settings)) vhost;
  when (messages_moved =? 0)
    (log_info ("No messages found in '" +:+ name
               +:+ "'. Continuing migration.");;
     print ("No messages found in '" +:+ name
            +:+ "'. Continuing migration."));;
  if messages_moved =? -1 then
    log_error "Error during message transfer. Migration aborted.";;
    print "[Migration halted] Error during message transfer. Investigate manually."
  else
  deleted ← delete_queue vhost name true;
  if negb deleted then
    log_error ("Failed to delete original queue '" +:+ name
               +:+ "'. Aborting migration.");;
    print ("[Migration halted] Could not delete original queue '" +:+ name
           +:+ "'. Investigate manually.")
  else
  let '(final_args, removed_final) :=
    utils.remove_unsupported_keys_value (s_arguments settings) target_type in
  when (negb (bool_decide (removed_final = [])))
    (log_info ("Removed unsupported arguments for " +:+ target_type
               +:+ " queue: " +:+ repr_list removed_final));;
  (* Set the x-queue-type for the recreated queue *)
  let final_args := <["x-queue-type" := VStr target_type]> final_args in
  recreated ← create_queue vhost name (s_durable settings) final_args;
  if negb recreated then
    log_error ("Failed to recreate queue '" +:+ name +:+ "' as '"
               +:+ target_type +:+ "'.");;
    print ("[Migration halted] Could not recreate queue '" +:+ name
           +:+ "'. Investigate manually.")
  else
  rebound ← recreate_bindings vhost name bindings;
  if negb rebound then mret tt
  else
  moved_back ← move_messages temp_name name target_type
                 (Some (s_arguments settings)) vhost;
  when ((moved_back =? 0) && (messages_moved =? 0))
    (log_info ("No messages moved back from '" +:+ temp_name +:+ "' to '"
               +:+ name +:+ "'. Continuing migration."));;
  if messages_moved =? -1 then
    log_error "Error during message transfer. Migration aborted.";;
    print "[Migration halted] Error during message transfer. Investigate manually."
  else
  if negb (moved_back =? messages_moved) then
    log_error ("Mismatch: moved " +:+ pretty messages_moved
               +:+ " to temp, but " +:+ pretty moved_back
               +:+ " moved back to '" +:+ name
               +:+ "'. Investigate manually.");;
    print "[Migration halted] Message count mismatch. Manual intervention required."
  else
  deleted_temp ← delete_queue vhost temp_name false;
  if negb deleted_temp then
    log_error ("Failed to delete temporary queue '" +:+ temp_name
               +:+ "'. Investigate manually.");;
    print ("[Migration warning] Could not delete temporary queue '"
           +:+ temp_name +:+ "'.")
  else
  print ("Migration complete! Queue '" +:+ name +:+ "' is now '"
         +:+ target_type +:+ "'.");;
  log_info ("Migration successful for queue '" +:+ name +:+ "' to '"
            +:+ target_type +:+ "'.")
  end
  end.

(** The [except KeyboardInterrupt] clause. *)
Definition migrate_queue_except (e : exn) : option (prog unit) :=
  match e with
  | KeyboardInterrupt =>
      Some (log_error "Migration interrupted by user (Ctrl+C).";;
            print (newline +:+ Fore_RED
                   +:+ "[Migration interrupted] by user. Investigate manually for cleanup."
                   +:+ Style_RESET_ALL))
  | Exception _ => None
  end.

(** Algorithm: creates temporary queue, moves messages, deletes original
    queue, recreates queue with new type, moves messages back, and
    deletes temporary queue. Currently, rollback is not implemented. *)
Definition migrate_queue (vhost name target_type : string) : prog unit :=
  log_info ("===== Starting migration of '" +:+ name +:+ "' to '"
            +:+ target_type +:+ "' =====");;
  try_except (migrate_queue_try vhost name target_type)
             migrate_queue_except.
End with_config.

End queue_migrator.

(** * Observing a run *)
Module observe.

(** The result of a relocation that returned. *)
Definition move_of (e : event) : option (string * string * Z) :=
  match e with
  | Ev o r =>
      match o in op R return reply R -> option (string * string * Z) with
      | MoveMessages source_queue target_queue _ _ _ => fun r =>
          match r with
          | Returned n => Some (source_queue, target_queue, n)
          | Raised _ => None
          end
      | _ => fun _ => None
      end r
  end.

Definition moves (tr : list event) : list (string * string * Z) :=
  omap move_of tr.

(** A request of the given method: its URL, its body, and whether the
    caller's status test with [codes] passes on the reply. *)
Definition request_of (method : string) (codes : list Z) (e : event)
  : option (string * option payload * bool) :=
  match e with
  | Ev o r =>
      match o in op R return reply R -> option (string * option payload * bool) with
      | SendApiRequest k method' url _ _ body => fun r =>
          if String.eqb method' method then
            Some (url, body,
                  match r with
                  | Returned v => bool_decide (is_Some (accepted v codes))
                  | Raised _ => false
                  end)
          else None
      | _ => fun _ => None
      end r
  end.

Definition requests (method : string) (codes : list Z) (tr : list event)
  : list (string * option payload * bool) :=
  omap (request_of method codes) tr.

(** The bindings document a [GET] returned with status 200. *)
Definition bindings_of (e : event) : option (list binding) :=
  match e with
  | Ev o r =>
      match o in op R return reply R -> option (list binding) with
      | SendApiRequest k _ _ _ _ _ =>
          match k return reply (option (response (body_type k)))
                         -> option (list binding) with
          | bindings_json => fun r =>
              match r with
              | Returned v => json <$> accepted v [200]
              | Raised _ => None
              end
          | _ => fun _ => None
          end
      | _ => fun _ => None
      end r
  end.

Definition fetched_bindings (tr : list event) : option (list binding) :=
  head (omap bindings_of tr).

(** The queue document a [GET] returned with status 200. *)
Definition queue_of (e : event) : option queue_document :=
  match e with
  | Ev o r =>
      match o in op R return reply R -> option queue_document with
      | SendApiRequest k _ _ _ _ _ =>
          match k return reply (option (response (body_type k)))
                         -> option queue_document with
          | queue_json => fun r =>
              match r with
              | Returned v => json <$> accepted v [200]
              | Raised _ => None
              end
          | _ => fun _ => None
          end
      | _ => fun _ => None
      end r
  end.

Definition fetched_queue (tr : list event) : option queue_document :=
  head (omap queue_of tr).

(** The lines given to [log_info], [log_error] and [print], whether or
    not the call returned. *)
Inductive sink := to_log_info | to_log_error | to_stdout.

Definition line_of (e : event) : option (sink * string) :=
  match e with
  | Ev o _ =>
      match o with
      | LogInfo m => Some (to_log_info, m)
      | LogError m => Some (to_log_error, m)
      | Print m => Some (to_stdout, m)
      | _ => None
      end
  end.

Definition lines (tr : list event) : list (sink * string) := omap line_of tr.

Definition sink_eqb (a b : sink) : bool :=
  match a, b with
  | to_log_info, to_log_info
  | to_log_error, to_log_error
  | to_stdout, to_stdout => true
  | _, _ => false
  end.

(** The calls that gave one line in particular. *)
Definition said (x : sink * string) (e : event) : option unit :=
  match line_of e with
  | Some (k, s) =>
      if sink_eqb k x.1 && String.eqb s x.2 then Some tt else None
  | None => None
  end.
Arguments said : simpl never.

(** What the calls raised. *)
Definition raise_of (e : event) : option exn :=
  match e with
  | Ev _ (Raised e) => Some e
  | Ev _ (Returned _) => None
  end.

Definition raises (tr : list event) : list exn := omap raise_of tr.

(** The URLs of the requests of a given method. *)
Definition url_of (method : string) (e : event) : option string :=
  match e with
  | Ev o _ =>
      match o with
      | SendApiRequest _ method' url _ _ _ =>
          if String.eqb method' method then Some url else None
      | _ => None
      end
  end.

Definition request_urls (method : string) (tr : list event) : list string :=
  omap (url_of method) tr.

(** The relocations started, whether or not they returned. *)
Definition relocation_of (e : event) : option (string * string) :=
  match e with
  | Ev o _ =>
      match o with
      | MoveMessages source_queue target_queue _ _ _ =>
          Some (source_queue, target_queue)
      | _ => None
      end
  end.

Definition relocations (tr : list event) : list (string * string) :=
  omap relocation_of tr.

(** What a run does to the broker, in order: requests and relocations. *)
Inductive step :=
| request (method url : string)
| relocation (source_queue target_queue : string).

Definition step_of (e : event) : option step :=
  match e with
  | Ev o _ =>
      match o with
      | SendApiRequest _ method url _ _ _ => Some (request method url)
      | MoveMessages source_queue target_queue _ _ _ =>
          Some (relocation source_queue target_queue)
      | _ => None
      end
  end.

Definition steps (tr : list event) : list step := omap step_of tr.

End observe.

(** * Scripted environments for concrete runs *)
Module scenario.

#[export] Instance local_broker : Config := {|
  RABBITMQ_HOST := "http://localhost:15672";
  RABBITMQ_USER := "guest";
  RABBITMQ_PASS := "guest";
  HOST := "localhost"
|}.

(** Python on the patterns of the examples: a pattern without
    metacharacters is a literal, for which [re.match] tests whether the
    string starts with it; the pattern "*" does not compile. *)
#[export] Instance literal_patterns : Regex := {|
  re_compile pattern :=
    if String.eqb pattern "*" then inl "nothing to repeat at position 0"
    else inr (fun s => String.prefix pattern s)
|}.

(** What the management API answers: the queue (if it exists), its
    bindings, the policies of the vhost, and the status of every PUT, POST
    and DELETE by method and URL. *)
Record script := {
  sc_queue : option queue_document;
  sc_bindings : list binding;
  sc_policies : list policy;
  sc_status : string -> string -> Z
}.

Definition ok_response {B} (status : Z) (doc : B) : response B :=
  {| status_code := status; text := ""; json := doc |}.

(** The state of the environment is the list of results that the
    relocations still to come will return. Nothing raises. *)
Definition answer (s : script) (R : Type) (o : op R) (w : list Z)
  : reply R * list Z :=
  match o in op R return reply R * list Z with
  | SendApiRequest k method url _ _ _ =>
      (Returned
         match k return option (response (body_type k)) with
         | queue_json =>
             match sc_queue s with
             | Some d => Some (ok_response 200 d)
             | None => Some (ok_response 404 {| doc_type := None;
                                                 doc_durable := None;
                                                 doc_exclusive := None;
                                                 doc_auto_delete := None;
                                                 doc_arguments := None;
                                                 doc_policy := None |})
             end
         | bindings_json => Some (ok_response 200 (sc_bindings s))
         | policies_json => Some (ok_response 200 (sc_policies s))
         | no_json => Some (ok_response (sc_status s method url) tt)
         end, w)
  | MoveMessages _ _ _ _ _ =>
      match w with
      | n :: w' => (Returned n, w')
      | [] => (Returned (-1), [])
      end
  | LogInfo _ | LogError _ | Print _ => (Returned tt, w)
  end.

Definition classic_queue (arguments : gmap string value) : queue_document :=
  {| doc_type := Some "classic";
     doc_durable := Some true;
     doc_exclusive := Some false;
     doc_auto_delete := Some false;
     doc_arguments := Some arguments;
     doc_policy := None |}.

Definition two_bindings : list binding :=
  [ {| b_source := Some "orders.ex"; b_routing_key := Some "new";
       b_arguments := Some ∅ |};
    {| b_source := Some "audit.ex"; b_routing_key := None;
       b_arguments := None |} ].

(** A broker on which every request succeeds. *)
Definition healthy : script :=
  {| sc_queue := Some (classic_queue {[ "x-max-priority" := VNum 10 ]});
     sc_bindings := two_bindings;
     sc_policies := [];
     sc_status method url := if String.eqb method "DELETE" then 204 else 201 |}.


(** Every queue is bound to the default exchange, whose name is empty;
    the management API lists that binding with the others. *)
Definition default_binding : binding :=
  {| b_source := Some ""; b_routing_key := Some "orders";
     b_arguments := Some ∅ |}.

Definition orders_binding : binding :=
  {| b_source := Some "orders.ex"; b_routing_key := Some "new";
     b_arguments := Some ∅ |}.

Definition with_default_binding : script :=
  {| sc_queue := Some (classic_queue ∅);
     sc_bindings := [default_binding; orders_binding];
     sc_policies := [];
     sc_status method url := if String.eqb method "DELETE" then 204 else 201 |}.

(** A policy whose pattern is empty, and so matches every name. *)
Definition catch_all_policy : policy :=
  {| p_name := Some "ha-all"; p_pattern := Some "";
     p_apply_to := Some "queues";
     p_definition := Some {[ "ha-mode" := VStr "all" ]} |}.

Definition orders_policy : policy :=
  {| p_name := Some "orders-ttl"; p_pattern := Some "orders";
     p_apply_to := Some "all";
     p_definition := Some {[ "message-ttl" := VNum 60000 ]} |}.

Definition exchange_policy : policy :=
  {| p_name := Some "ex"; p_pattern := Some "ord";
     p_apply_to := Some "exchanges";
     p_definition := None |}.


Definition with_policies : script :=
  {| sc_queue := Some (classic_queue ∅);
     sc_bindings := [];
     sc_policies := [exchange_policy; orders_policy; catch_all_policy];
     sc_status method url := 204 |}.


(** A store with one dictionary, the arguments of a priority queue. *)
Definition priority_arguments : gmap string value :=
  {[ "x-max-priority" := VNum 10; "x-message-ttl" := VNum 60000 ]}.

Definition one_dictionary : gmap positive (gmap string value) :=
  {[ 1%positive := priority_arguments ]}.

Definition exclusive_queue : migration_planner.queue_info :=
  {| migration_planner.qi_queue_name := Some "orders";
     migration_planner.qi_vhost := "%2f";
     migration_planner.qi_type := "classic";
     migration_planner.qi_durable := false;
     migration_planner.qi_exclusive := true;
     migration_planner.qi_auto_delete := true;
     migration_planner.qi_arguments := {[ "x-queue-mode" := VStr "lazy" ]} |}.

(** Brokers and faults for the relocation. *)
Definition text_message (s : string) : message_utils.message :=
  {| message_utils.properties := []; message_utils.body := s |}.

Definition no_faults : message_utils.environment :=
  {| message_utils.connect_error c := None;
     message_utils.missing_queue_error q :=
       "(404, NOT_FOUND - no queue '" +:+ q +:+ "')";
     message_utils.publish_error n m := None |}.

(** The second publish is refused. *)
Definition second_publish_fails : message_utils.environment :=
  {| message_utils.connect_error c := None;
     message_utils.missing_queue_error q :=
       "(404, NOT_FOUND - no queue '" +:+ q +:+ "')";
     message_utils.publish_error n m :=
       if Nat.eqb n 1 then Some "message was nacked" else None |}.

Definition three_messages : gmap string (list message_utils.message) :=
  {[ "orders" := [text_message "first"; text_message "second";
                  text_message "third"];
     "orders_temp_migrated" := [] ]}.

Definition empty_queues : gmap string (list message_utils.message) :=
  {[ "orders" := []; "orders_temp_migrated" := [] ]}.

Definition no_temp_queue : gmap string (list message_utils.message) :=
  {[ "orders" := [text_message "first"] ]}.



Definition no_source_queue : gmap string (list message_utils.message) :=
  {[ "orders_temp_migrated" := [] ]}.

(** The broker refuses the first connection. *)
Definition refused : message_utils.environment :=
  {| message_utils.connect_error c :=
       match c with
       | message_utils.source_conn => Some "Connection refused"
       | message_utils.target_conn => None
       end;
     message_utils.missing_queue_error q :=
       "(404, NOT_FOUND - no queue '" +:+ q +:+ "')";
     message_utils.publish_error n m := None |}.

(** A vhost without the queue. *)
Definition missing_queue : script :=
  {| sc_queue := None;
     sc_bindings := [];
     sc_policies := [];
     sc_status method url := 404 |}.

(** The arguments of a priority queue, in the order of their
    insertion. *)
Definition priority_items : list (string * value) :=
  [("x-max-priority", VNum 10); ("x-message-ttl", VNum 60000)].

Definition priority_queue : migration_planner.queue_info :=
  {| migration_planner.qi_queue_name := Some "orders";
     migration_planner.qi_vhost := "%2f";
     migration_planner.qi_type := "classic";
     migration_planner.qi_durable := true;
     migration_planner.qi_exclusive := false;
     migration_planner.qi_auto_delete := false;
     migration_planner.qi_arguments := priority_arguments |}.

(** What [get_queue_settings] makes of the queue of the healthy
    broker. *)
Definition healthy_settings : queue_utils.settings :=
  {| queue_utils.s_durable := true;
     queue_utils.s_arguments := {[ "x-max-priority" := VNum 10 ]};
     queue_utils.s_policy := None |}.

(** An environment in which every request and every relocation is
    interrupted from the keyboard. *)
Definition interrupted (R : Type) (o : op R) (w : unit) : reply R * unit :=
  match o in op R return reply R * unit with
  | SendApiRequest _ _ _ _ _ _ => (Raised KeyboardInterrupt, w)
  | MoveMessages _ _ _ _ _ => (Raised KeyboardInterrupt, w)
  | LogInfo _ | LogError _ | Print _ => (Returned tt, w)
  end.

(** The run of the orchestrator on the healthy broker when the two
    relocations return the given counts. *)
Abbreviation migration forward back :=
  (trace (answer healthy)
         (queue_migrator.migrate_queue "%2f" "orders" "quorum")
         [forward; back]).
End scenario.

(** * The policy lookup as the specification words it

    A policy applies to a queue name when its pattern matches the name and
    its apply-to field is "queues" or "all"; the lookup returns the first
    policy of the list that applies, and no policy when none does. A
    pattern that does not compile matches nothing. *)
Module spec.
Definition applies_to_queues (p : policy) : bool :=
  from_option (fun a => str_in a ["queues"; "all"]) false (p_apply_to p).

Definition pattern_matches `{Regex} (queue_name : string) (p : policy)
  : bool :=
  match p_pattern p with
  | Some pattern =>
      match re_compile pattern with
      | inr matches => matches queue_name
      | inl _ => false
      end
  | None => false
  end.

Definition policy_applies `{Regex} (queue_name : string) (p : policy) : bool :=
  pattern_matches queue_name p && applies_to_queues p.

Definition policy_lookup `{Regex} (policies : list policy)
    (queue_name : string) : option policy :=
  List.find (policy_applies queue_name) policies.

(** The lookup compiles the pattern of a policy only when the policy has
    one and its apply-to field is "queues" or "all": this says that it
    can. *)
Definition pattern_compiles `{Regex} (p : policy) : bool :=
  match p_pattern p with
  | Some pattern =>
      negb (applies_to_queues p)
      || match re_compile pattern with inr _ => true | inl _ => false end
  | None => true
  end.

(** The requests that recreate a list of bindings on a queue: one POST
    for each binding that names a source exchange, in the order of the
    list, with the binding's routing key and arguments (an absent routing
    key is the empty string, absent arguments the empty dictionary). *)
Definition binding_requests `{Config} (vhost queue_name : string)
    (bindings : list binding) : list (string * option payload) :=
  omap (fun b =>
          if opt_str_truthy (b_source b) then
            Some (queue_utils.binding_url vhost (default "" (b_source b))
                                          queue_name,
                  Some (binding_payload (default "" (b_routing_key b))
                                        (default ∅ (b_arguments b))))
          else None)
       bindings.

(** The POSTs of a REBIND step that nothing interrupted, with the result
    of the status test of each: the requests of the bindings, which all
    passed; or those up to the first that did not pass, and no other. *)
Definition rebind_outcome (wanted : list (string * option payload))
    (posts : list (string * option payload * bool)) : Prop :=
  posts = (fun x => (x, true)) <$> wanted
  \/ exists sent x rest,
       wanted = sent ++ x :: rest
       /\ posts = ((fun x => (x, true)) <$> sent) ++ [(x, false)].

(** The steps of a migration that runs to its end, in order: the queue,
    its policy when it has one, and its bindings are read; the
    temporary queue is created and filled; the original queue is
    deleted (if empty) and created again; its bindings are recreated;
    the messages are moved back and the temporary queue is deleted. *)
Definition migration_steps `{Config} (vhost name : string)
    (policy_lookup : bool) (bindings : list binding) : list observe.step :=
  [observe.request "GET" (queue_utils.queue_url vhost name)]
  ++ (if policy_lookup
      then [observe.request "GET" (queue_utils.policies_url vhost)]
      else [])
  ++ [ observe.request "GET" (queue_utils.bindings_url vhost name);
       observe.request "PUT"
         (queue_utils.queue_url vhost (name +:+ "_temp_migrated"));
       observe.relocation name (name +:+ "_temp_migrated");
       observe.request "DELETE"
         (queue_utils.queue_url vhost name +:+ "?if-empty=true");
       observe.request "PUT" (queue_utils.queue_url vhost name) ]
  ++ ((fun x => observe.request "POST" x.1)
        <$> binding_requests vhost name bindings)
  ++ [ observe.relocation (name +:+ "_temp_migrated") name;
       observe.request "DELETE"
         (queue_utils.queue_url vhost (name +:+ "_temp_migrated")) ].
End spec.

(** * Properties of utils.py *)
Section utils_facts.
Context {V : Type}.
Implicit Types (d : gmap string V) (σ : gmap positive (gmap string V)).
Implicit Types (keys removed : list string).

(** The loop on the store computes what the loop on values computes, and
    writes it to the copy only. *)
Lemma remove_loop_value_spec keys args_copy removed σ d :
  σ !! args_copy = Some d ->
  utils.remove_loop keys args_copy removed σ
  = Some ((utils.remove_loop_value keys d removed).2,
          <[args_copy := (utils.remove_loop_value keys d removed).1]> σ).
Proof.
  revert removed σ d.
  induction keys as [|key keys IH]; intros removed σ d Hd; simpl.
  - by rewrite insert_id.
  - unfold utils.dict_contains, utils.dict_pop. rewrite Hd. simpl.
    case_bool_decide as Hkey.
    + destruct Hkey as [v Hv]. rewrite Hv. simpl.
      rewrite (IH _ _ (delete key d)); last by rewrite lookup_insert_eq.
      by rewrite insert_insert_eq.
    + by apply IH.
Qed.

Lemma remove_unsupported_keys_value_spec arguments queue_type σ d :
  σ !! arguments = Some d ->
  utils.remove_unsupported_keys arguments queue_type σ
  = Some (fresh (dom σ),
          (utils.remove_unsupported_keys_value d queue_type).2,
          <[fresh (dom σ) :=
              (utils.remove_unsupported_keys_value d queue_type).1]> σ).
Proof.
  intros Hd. unfold utils.remove_unsupported_keys, utils.dict_copy.
  rewrite Hd. simpl.
  rewrite (remove_loop_value_spec _ _ _ _ d); last by rewrite lookup_insert_eq.
  simpl. by rewrite insert_insert_eq.
Qed.

(** After the loop none of the listed keys is left. *)
Lemma remove_loop_value_absent keys d removed key :
  key ∈ keys -> (utils.remove_loop_value keys d removed).1 !! key = None.
Proof.
  revert d removed.
  induction keys as [|k keys IH]; intros d removed Hin; simpl.
  - by apply elem_of_nil in Hin.
  - assert (Hkeep : forall d' removed',
               d' !! key = None ->
               (utils.remove_loop_value keys d' removed').1 !! key = None).
    { clear. revert key. induction keys as [|k' keys IH']; intros key d' removed' Hnone; simpl; [done|].
      case_bool_decide; apply IH'; [|done].
      destruct (decide (k' = key)) as [->|Hne];
        [apply lookup_delete_eq | by rewrite lookup_delete_ne]. }
    apply elem_of_cons in Hin as [->|Hin].
    + case_bool_decide as Hk.
      * apply Hkeep, lookup_delete_eq.
      * apply Hkeep. by apply eq_None_not_Some.
    + case_bool_decide; by apply IH.
Qed.

(** A dictionary without any of the listed keys goes through unchanged. *)
Lemma remove_loop_value_id keys d removed :
  (forall key, key ∈ keys -> d !! key = None) ->
  utils.remove_loop_value keys d removed = (d, removed).
Proof.
  induction keys as [|k keys IH]; intros Hnone; simpl; [done|].
  rewrite bool_decide_eq_false_2.
  - apply IH. intros key Hin. apply Hnone. by right.
  - rewrite (Hnone k); [by intros [? ?] | by left].
Qed.

Lemma remove_unsupported_keys_value_idem d queue_type :
  utils.remove_unsupported_keys_value
    (utils.remove_unsupported_keys_value d queue_type).1 queue_type
  = ((utils.remove_unsupported_keys_value d queue_type).1, []).
Proof.
  unfold utils.remove_unsupported_keys_value.
  apply remove_loop_value_id. intros key Hin.
  by apply remove_loop_value_absent.
Qed.

(** C3: [remove_unsupported_keys] is idempotent. Filtering the result of a
    first filtering, for the same queue type, returns a dictionary with
    the same items and an empty list of removed keys. *)
Theorem C3_remove_unsupported_keys_idempotent arguments queue_type σ d :
  σ !! arguments = Some d ->
  exists args1 removed1 σ1 d1 args2 σ2,
    utils.remove_unsupported_keys arguments queue_type σ
      = Some (args1, removed1, σ1)
    /\ σ1 !! args1 = Some d1
    /\ utils.remove_unsupported_keys args1 queue_type σ1
      = Some (args2, [], σ2)
    /\ σ2 !! args2 = Some d1.
Proof.
  intros Hd.
  pose proof (remove_unsupported_keys_value_spec _ queue_type _ _ Hd) as H1.
  set (d1 := (utils.remove_unsupported_keys_value d queue_type).1) in *.
  set (σ1 := <[fresh (dom σ) := d1]> σ) in *.
  assert (Hd1 : σ1 !! fresh (dom σ) = Some d1) by apply lookup_insert_eq.
  pose proof (remove_unsupported_keys_value_spec _ queue_type _ _ Hd1) as H2.
  subst d1. rewrite remove_unsupported_keys_value_idem in H2. simpl in H2.
  eexists _, _, _, _, _, _. split; [exact H1|].
  split; [exact Hd1|]. split; [exact H2|]. apply lookup_insert_eq.
Qed.

(** C9: argument filtering returns a new dictionary and leaves its input
    as it was: the returned reference is fresh, the argument still holds
    the items it held, and so does every other object of the store. *)
Theorem C9_remove_unsupported_keys_frame arguments queue_type σ d :
  σ !! arguments = Some d ->
  exists args_copy removed σ',
    utils.remove_unsupported_keys arguments queue_type σ
      = Some (args_copy, removed, σ')
    /\ σ !! args_copy = None
    /\ σ' !! arguments = Some d
    /\ forall r, r ≠ args_copy -> σ' !! r = σ !! r.
Proof.
  intros Hd.
  eexists _, _, _. split.
  { by apply remove_unsupported_keys_value_spec. }
  assert (Hfresh : σ !! fresh (dom σ) = None).
  { apply not_elem_of_dom, is_fresh. }
  split; [done|]. split.
  - rewrite lookup_insert_ne; [done|]. intros Heq. congruence.
  - intros r Hr. by rewrite lookup_insert_ne.
Qed.

(** What the loop leaves in the copy: the items whose key is not listed. *)
Lemma remove_loop_value_lookup keys d removed key :
  (utils.remove_loop_value keys d removed).1 !! key
  = if bool_decide (key ∈ keys) then None else d !! key.
Proof.
  revert d removed.
  induction keys as [|k keys IH]; intros d removed; simpl; [done|].
  destruct (bool_decide (is_Some (d !! k))) eqn:Hk; rewrite IH.
  - apply bool_decide_eq_true in Hk.
    destruct (decide (key = k)) as [->|Hne].
    + rewrite (bool_decide_eq_true_2 (k ∈ k :: keys)) by by left.
      case_bool_decide; [done|apply lookup_delete_eq].
    + rewrite lookup_delete_ne by done.
      rewrite (bool_decide_ext (key ∈ k :: keys) (key ∈ keys)); [done|].
      split; [by intros [?|?]%elem_of_cons | by right].
  - apply bool_decide_eq_false in Hk.
    destruct (decide (key = k)) as [->|Hne].
    + rewrite (bool_decide_eq_true_2 (k ∈ k :: keys)) by by left.
      case_bool_decide; [done|]. by apply eq_None_not_Some.
    + rewrite (bool_decide_ext (key ∈ k :: keys) (key ∈ keys)); [done|].
      split; [by intros [?|?]%elem_of_cons | by right].
Qed.

(** What the loop reports: the listed keys that the dictionary holds, in
    the order of the list. *)
Lemma remove_loop_value_removed keys d removed :
  NoDup keys ->
  (utils.remove_loop_value keys d removed).2
  = removed ++ filter (fun key => is_Some (d !! key)) keys.
Proof.
  revert d removed.
  induction keys as [|k keys IH]; intros d removed Hnd; simpl.
  { by rewrite app_nil_r. }
  apply NoDup_cons in Hnd as [Hk Hnd].
  assert (Hsame : filter (fun key => is_Some (delete k d !! key)) keys
                  = filter (fun key => is_Some (d !! key)) keys).
  { clear IH Hnd. induction keys as [|k' keys IH']; [done|].
    apply not_elem_of_cons in Hk as [Hne Hk].
    rewrite !filter_cons, IH' by done.
    rewrite lookup_delete_ne by done. done. }
  rewrite filter_cons. case_bool_decide as Hin.
  - rewrite decide_True by done. rewrite IH by done.
    by rewrite Hsame, <- app_assoc.
  - rewrite decide_False by done. by apply IH.
Qed.

Lemma unsupported_features_NoDup queue_type :
  NoDup (default [] (utils.UNSUPPORTED_FEATURES !! queue_type)).
Proof.
  unfold utils.UNSUPPORTED_FEATURES.
  destruct (decide (queue_type = "quorum")) as [->|Hne].
  - rewrite lookup_singleton_eq. simpl.
    apply (bool_decide_unpack _). by vm_compute.
  - rewrite lookup_singleton_ne by done. constructor.
Qed.

(** X6: [remove_unsupported_keys] returns a new dictionary that holds
    exactly the items of its argument whose key is not unsupported for the
    queue type, with their values, and the list of the unsupported keys
    that the argument held, in the order of the table. *)
Theorem remove_unsupported_keys_result arguments queue_type σ d :
  σ !! arguments = Some d ->
  exists args_copy removed σ' d',
    utils.remove_unsupported_keys arguments queue_type σ
    = Some (args_copy, removed, σ')
    /\ σ' !! args_copy = Some d'
    /\ (forall key,
          d' !! key
          = if bool_decide
                 (key ∈ default [] (utils.UNSUPPORTED_FEATURES !! queue_type))
            then None else d !! key)
    /\ removed
       = filter (fun key => is_Some (d !! key))
                (default [] (utils.UNSUPPORTED_FEATURES !! queue_type)).
Proof.
  intros Hd. eexists _, _, _, _.
  split; [by apply remove_unsupported_keys_value_spec|].
  split; [apply lookup_insert_eq|].
  unfold utils.remove_unsupported_keys_value. split.
  - intros key. apply remove_loop_value_lookup.
  - rewrite remove_loop_value_removed; [done|].
    apply unsupported_features_NoDup.
Qed.

(** X7: for a queue type that the table of unsupported features does not
    list (any type but "quorum"), [remove_unsupported_keys] removes
    nothing: it returns a copy with the items of its argument and an empty
    list. *)
Theorem remove_unsupported_keys_unknown_type arguments queue_type σ d :
  σ !! arguments = Some d ->
  queue_type ≠ "quorum" ->
  exists args_copy σ',
    utils.remove_unsupported_keys arguments queue_type σ
    = Some (args_copy, [], σ')
    /\ σ' !! args_copy = Some d
    /\ σ !! args_copy = None.
Proof.
  intros Hd Hne. eexists _, _.
  rewrite (remove_unsupported_keys_value_spec _ _ _ _ Hd).
  unfold utils.remove_unsupported_keys_value, utils.UNSUPPORTED_FEATURES.
  rewrite lookup_singleton_ne by done. simpl.
  split; [reflexivity|]. split; [apply lookup_insert_eq|].
  apply not_elem_of_dom, is_fresh.
Qed.
End utils_facts.

(** * Properties of migration_planner.py and of the policy lookup *)
Section planner_facts.
Import migration_planner.

(** C4: an exclusive queue is blocked. Whatever its other fields, the
    blockers computed for the quorum target (and for any target the
    capability table knows) hold "Exclusive queues are not supported." *)
Theorem C4_exclusive_queue_is_blocked (q : queue_info) :
  qi_exclusive q = true ->
  (exists blockers warnings,
      detect_migration_blockers q "quorum" = Some (blockers, warnings))
  /\ forall target_type blockers warnings,
      detect_migration_blockers q target_type = Some (blockers, warnings) ->
      "Exclusive queues are not supported." ∈ blockers.
Proof.
  intros Hex. split.
  - unfold detect_migration_blockers. 
    replace (utils.SUPPORTED_SETTINGS !! "quorum")
      with (Some {| utils.ss_durable := true;
                    utils.ss_supported := [ "x-expires"; "x-max-length";
                      "x-message-ttl"; "x-dead-letter-exchange";
                      "x-dead-letter-routing-key"; "x-max-length-bytes";
                      "delivery-limit"; "queue-initial-cluster-size";
                      "dead-letter-strategy"; "leader-locator" ];
                    utils.ss_unsupported :=
                      default [] (utils.UNSUPPORTED_FEATURES !! "quorum") |})
      by reflexivity.
    simpl. eauto.
  - intros target_type blockers warnings.
    unfold detect_migration_blockers.
    destruct (utils.SUPPORTED_SETTINGS !! target_type) as [settings|];
      simpl; [|done].
    rewrite Hex. intros [= <- _].
    destruct (qi_auto_delete q).
    + apply elem_of_app. left. apply elem_of_app. right. by left.
    + apply elem_of_app. right. by left.
Qed.

Context `{Regex}.

(** For a queue name that is not empty, the loop of [get_queue_policy]
    goes past the policies that compile and do not apply. *)
Lemma matching_policy_skips before rest queue_name :
  str_truthy queue_name = true ->
  forallb spec.pattern_compiles before = true ->
  spec.policy_lookup before queue_name = None ->
  queue_utils.matching_policy (before ++ rest) (Some queue_name)
  = queue_utils.matching_policy rest (Some queue_name).
Proof.
  intros Hname. unfold spec.policy_lookup.
  induction before as [|p before IH]; [done|].
  cbn [forallb List.find app queue_utils.matching_policy opt_str_truthy].
  rewrite Hname. intros [Hp Hcompile]%andb_prop Hfind.
  destruct (spec.policy_applies queue_name p) eqn:Hno; [done|].
  specialize (IH Hcompile Hfind). revert Hp Hno.
  unfold spec.pattern_compiles, spec.policy_applies, spec.pattern_matches,
    spec.applies_to_queues.
  destruct (p_pattern p) as [pattern|]; [|done].
  destruct (from_option _ false (p_apply_to p)); [|done].
  destruct (re_compile pattern) as [message|matches]; [done|].
  change (default "" (Some queue_name)) with queue_name.
  by destruct (matches queue_name).
Qed.

(** It returns the first policy that applies, when the patterns it has to
    compile on the way do compile. *)
Lemma matching_policy_found before p after queue_name :
  str_truthy queue_name = true ->
  forallb spec.pattern_compiles before = true ->
  spec.policy_lookup before queue_name = None ->
  spec.policy_applies queue_name p = true ->
  queue_utils.matching_policy (before ++ p :: after) (Some queue_name)
  = Ret (Some p).
Proof.
  intros Hname Hcompile Hbefore Hp.
  rewrite matching_policy_skips by done.
  cbn [queue_utils.matching_policy opt_str_truthy]. rewrite Hname.
  revert Hp. unfold spec.policy_applies, spec.pattern_matches,
    spec.applies_to_queues.
  destruct (p_pattern p) as [pattern|]; [|done].
  destruct (from_option _ false (p_apply_to p));
    [|by rewrite andb_false_r].
  destruct (re_compile pattern) as [message|matches]; [done|].
  change (default "" (Some queue_name)) with queue_name.
  by destruct (matches queue_name).
Qed.





Lemma supported_settings_lookup target_type :
  utils.SUPPORTED_SETTINGS !! target_type
  = if decide (target_type = "quorum")
    then Some {| utils.ss_durable := true;
                 utils.ss_supported :=
                   [ "x-expires"; "x-max-length"; "x-message-ttl";
                     "x-dead-letter-exchange"; "x-dead-letter-routing-key";
                     "x-max-length-bytes"; "delivery-limit";
                     "queue-initial-cluster-size"; "dead-letter-strategy";
                     "leader-locator" ];
                 utils.ss_unsupported :=
                   default [] (utils.UNSUPPORTED_FEATURES !! "quorum") |}
    else None.
Proof.
  unfold utils.SUPPORTED_SETTINGS. case_decide as Ht.
  - subst. by rewrite lookup_singleton_eq.
  - by rewrite lookup_singleton_ne.
Qed.

(** X12: the blockers of a queue depend on its three flags only: they
    are, in this order, the non-durable, the exclusive and the auto-delete
    message, each present exactly when its flag calls for it, so that a
    queue has no blocker exactly when it is durable, not exclusive and not
    auto-delete, whatever its arguments; a target type other than
    "quorum" is a [KeyError]. *)
Theorem detect_migration_blockers_flags (q : queue_info) :
  exists warnings,
    detect_migration_blockers q "quorum"
    = Some ((if qi_durable q then []
             else ["Non-durable queues cannot be migrated."])
            ++ (if qi_exclusive q
                then ["Exclusive queues are not supported."] else [])
            ++ (if qi_auto_delete q
                then ["Auto-delete queues cannot be migrated."] else []),
            warnings)
    /\ ((if qi_durable q then []
         else ["Non-durable queues cannot be migrated."])
        ++ (if qi_exclusive q
            then ["Exclusive queues are not supported."] else [])
        ++ (if qi_auto_delete q
            then ["Auto-delete queues cannot be migrated."] else [])
        = [] <->
        qi_durable q = true /\ qi_exclusive q = false
        /\ qi_auto_delete q = false)
    /\ (forall target_type,
          detect_migration_blockers q target_type = None <->
          target_type <> "quorum").
Proof.
  unfold detect_migration_blockers.
  eexists. split; [|split].
  - rewrite supported_settings_lookup. simpl.
    by destruct (qi_durable q), (qi_exclusive q), (qi_auto_delete q).
  - destruct (qi_durable q), (qi_exclusive q), (qi_auto_delete q); simpl;
      split; try done; intros (? & ? & ?); done.
  - intros target_type. rewrite supported_settings_lookup.
    case_decide; simpl; split; done.
Qed.

(** X13: the settings that the planner announces as removed are removed
    by the migration: when one of them is among the arguments of the
    queue, the planner's warnings hold its line, and
    [remove_unsupported_keys] for "quorum" reports the key and returns
    arguments without it. *)
Theorem announced_removals_are_removed (q : queue_info) arg :
  arg ∈ ["x-queue-version"; "x-queue-master-locator"; "x-max-priority"] ->
  is_Some (qi_arguments q !! arg) ->
  exists blockers warnings,
    detect_migration_blockers q "quorum" = Some (blockers, warnings)
    /\ ("Setting '" +:+ arg +:+ "' will be removed during migration.")
         ∈ warnings
    /\ arg ∈ (utils.remove_unsupported_keys_value (qi_arguments q)
                                                  "quorum").2
    /\ (utils.remove_unsupported_keys_value (qi_arguments q) "quorum").1
         !! arg = None.
Proof.
  intros Harg Hin.
  assert (Hkeep : forall ws w, w ∈ ws ->
            w ∈ unsupported_value_warnings (qi_arguments q) ws).
  { intros ws w Hw. unfold unsupported_value_warnings. simpl.
    repeat case_match; repeat (apply elem_of_app; left); done. }
  unfold detect_migration_blockers. rewrite supported_settings_lookup.
  simpl. eexists _, _. split; [reflexivity|]. split; [|split].
  - apply Hkeep. unfold removed_setting_warnings. simpl.
    repeat (apply elem_of_cons in Harg as [->|Harg]);
      [| | |by apply elem_of_nil in Harg];
      rewrite (bool_decide_eq_true_2 _ Hin);
      repeat case_bool_decide;
      repeat first [ apply list_elem_of_here
                   | apply elem_of_app; right; apply list_elem_of_here
                   | apply elem_of_app; left ].
  - unfold utils.remove_unsupported_keys_value.
    rewrite remove_loop_value_removed by apply unsupported_features_NoDup.
    simpl. apply list_elem_of_filter. split; [done|].
    repeat (apply elem_of_cons in Harg as [->|Harg]);
      [| | |by apply elem_of_nil in Harg];
      apply (bool_decide_unpack _); by vm_compute.
  - unfold utils.remove_unsupported_keys_value.
    rewrite remove_loop_value_lookup.
    rewrite bool_decide_eq_true_2; [done|].
    repeat (apply elem_of_cons in Harg as [->|Harg]);
      [| | |by apply elem_of_nil in Harg];
      apply (bool_decide_unpack _); by vm_compute.
Qed.
(** X14: an argument value listed as incompatible is only warned about:
    when "x-queue-mode" is "lazy" or "overflow" is "reject-publish-dlx",
    the planner's warnings hold the line for it and its blockers are
    those of the three flags alone. The migration then removes
    "x-queue-mode", but passes "overflow" on to the new queue as it
    is. *)
Theorem incompatible_values_only_warn (q : queue_info) key bad :
  (key, bad) ∈ [("x-queue-mode", "lazy"); ("overflow", "reject-publish-dlx")] ->
  qi_arguments q !! key = Some (VStr bad) ->
  exists warnings,
    detect_migration_blockers q "quorum"
    = Some ((if qi_durable q then []
             else ["Non-durable queues cannot be migrated."])
            ++ (if qi_exclusive q
                then ["Exclusive queues are not supported."] else [])
            ++ (if qi_auto_delete q
                then ["Auto-delete queues cannot be migrated."] else []),
            warnings)
    /\ ("Argument '" +:+ key +:+ "=" +:+ bad
        +:+ "' is not compatible with Quorum Queues.") ∈ warnings
    /\ (utils.remove_unsupported_keys_value (qi_arguments q) "quorum").1
         !! key
       = if bool_decide (key = "overflow") then Some (VStr bad) else None.
Proof.
  intros Hkey Hval.
  unfold detect_migration_blockers. rewrite supported_settings_lookup.
  simpl. eexists. split; [|split].
  - by destruct (qi_durable q), (qi_exclusive q), (qi_auto_delete q).
  - unfold unsupported_value_warnings. simpl.
    apply elem_of_cons in Hkey as [[= -> ->]|Hkey];
      [|apply list_elem_of_singleton in Hkey as [= -> ->]];
      rewrite Hval; simpl.
    + repeat case_match;
        repeat first [ apply list_elem_of_here
                     | apply elem_of_app; right; apply list_elem_of_here
                     | apply elem_of_app; left ].
    + apply elem_of_app. right. apply list_elem_of_here.
  - unfold utils.remove_unsupported_keys_value.
    rewrite remove_loop_value_lookup.
    apply elem_of_cons in Hkey as [[= -> ->]|Hkey];
      [|apply list_elem_of_singleton in Hkey as [= -> ->]].
    + by vm_compute.
    + rewrite Hval. by vm_compute.
Qed.
End planner_facts.

(** * Properties of message_utils.py *)
Section relocation_facts.
Import message_utils.
Context `{Config}.
Implicit Types (b : gmap string (list message)) (env : environment).

(** With an empty source queue the first pull times out. *)
Lemma consume_loop_empty env source_queue target_queue batch_size fuel moved b :
  b !! source_queue = Some [] ->
  exists tr,
    consume_loop env source_queue target_queue batch_size (S fuel) moved b
    = Some (returned (Z.of_nat moved), b, tr).
Proof. intros Hsrc. simpl. rewrite Hsrc. eauto. Qed.

(** An empty source queue relocates to the count 0, with the broker as
    it was. *)
Lemma move_messages_empty_source env source_queue target_queue queue_type
    original_args vhost batch_size fuel b dst :
  connect_error env source_conn = None ->
  connect_error env target_conn = None ->
  b !! target_queue = Some dst ->
  b !! source_queue = Some [] ->
  exists tr,
    move_messages env source_queue target_queue queue_type original_args
                  vhost batch_size (S fuel) b
    = Some (0, b, tr).
Proof.
  intros Hs Ht Htgt Hsrc. unfold move_messages.
  rewrite Hs, Ht, Htgt. simpl. rewrite Hsrc. simpl. eauto.
Qed.

(** C6: when the destination queue does not exist, the passive
    declaration fails and [move_messages] returns -1 at once: the broker
    is as it was, and the run holds no pull, delivery, ack or nack on the
    source. No fuel is needed. *)
Theorem C6_missing_destination_consumes_nothing env source_queue target_queue
    queue_type original_args vhost batch_size fuel b :
  connect_error env source_conn = None ->
  connect_error env target_conn = None ->
  b !! target_queue = None ->
  exists tr,
    move_messages env source_queue target_queue queue_type original_args
                  vhost batch_size fuel b
    = Some (-1, b, tr)
    /\ queue_declare_passive target_queue
         (Some (missing_queue_error env target_queue)) ∈ tr
    /\ existsb touches_source tr = false.
Proof.
  intros Hs Ht Htgt. unfold move_messages. rewrite Hs, Ht, Htgt.
  eexists. split; [reflexivity|]. split; [|reflexivity].
  simpl. do 3 right. by left.
Qed.

(** The relocation loop up to a failing publish: the messages before the
    failing one are in the destination, in order; the failing one is back
    at the head of the source; the last events are its delivery, the
    failed publish, the nack with requeue, and the cancel. *)
Lemma consume_loop_publish_failure env source_queue target_queue batch_size :
  source_queue ≠ target_queue ->
  forall pre fuel moved b dst m post e,
    b !! source_queue = Some (pre ++ m :: post) ->
    b !! target_queue = Some dst ->
    (forall i x, pre !! i = Some x ->
                 publish_error env (moved + i)%nat x = None) ->
    publish_error env (moved + length pre)%nat m = Some e ->
    (length pre < fuel)%nat ->
    exists tr,
      consume_loop env source_queue target_queue batch_size fuel moved b
      = Some (returned (-1),
              <[source_queue := m :: post]>
                (<[target_queue := dst ++ pre]> b),
              tr ++ [ consume_next source_queue None;
                      delivered (S (moved + length pre)) m;
                      basic_publish "" target_queue m (Some e);
                      basic_nack (S (moved + length pre)) true;
                      print ("Failed to move message: " +:+ e);
                      cancel ])
      /\ deliveries tr = pre.
Proof.
  intros Hne pre.
  induction pre as [|x pre IH]; intros fuel moved b dst m post e
    Hsrc Htgt Hok Hfail Hfuel; (destruct fuel as [|fuel]; [simpl in Hfuel; lia|]).
  - simpl in *. rewrite Nat.add_0_r in Hfail. rewrite Nat.add_0_r.
    rewrite Hsrc, Hfail. exists []. split; [|done]. simpl.
    rewrite app_nil_r. do 3 f_equal.
    by rewrite (insert_id b target_queue), insert_id.
  - simpl in Hsrc. cbn [consume_loop]. rewrite Hsrc.
    pose proof (Hok 0%nat x eq_refl) as Hx.
    rewrite Nat.add_0_r in Hx. rewrite Hx.
    set (b1 := publish target_queue x b).
    assert (Hb1 : b1 = <[target_queue := dst ++ [x]]> b).
    { unfold b1, publish. by rewrite Htgt. }
    assert (Hb1s : b1 !! source_queue = Some (x :: pre ++ m :: post)).
    { rewrite Hb1, lookup_insert_ne; done. }
    set (b2 := ack source_queue b1).
    assert (Hb2 : b2 = <[source_queue := pre ++ m :: post]> b1).
    { unfold b2, ack. by rewrite Hb1s. }
    destruct (IH fuel (S moved) b2 (dst ++ [x]) m post e) as (tr & Hrun & Hlen).
    + by rewrite Hb2, lookup_insert_eq.
    + rewrite Hb2, lookup_insert_ne, Hb1, lookup_insert_eq; done.
    + intros i y Hy.
      replace (S moved + i)%nat with (moved + S i)%nat by lia.
      by apply Hok.
    + by replace (S moved + length pre)%nat
        with (moved + length (x :: pre))%nat by (simpl; lia).
    + simpl in Hfuel. lia.
    + rewrite Hrun.
      replace (moved + length (x :: pre))%nat
        with (S moved + length pre)%nat by (simpl; lia).
      simpl.
      eexists (_ :: _ :: _ :: _ :: _ ++ tr). split.
      * do 2 f_equal.
        -- f_equal. rewrite Hb2, Hb1. rewrite <- app_assoc. simpl.
           apply map_eq. intros k.
           destruct (decide (k = source_queue)) as [->|Hks];
             [by rewrite !lookup_insert_eq|].
           rewrite !(lookup_insert_ne _ source_queue) by done.
           destruct (decide (k = target_queue)) as [->|Hkt];
             [by rewrite !lookup_insert_eq|].
           by rewrite !lookup_insert_ne.
        -- simpl. by rewrite <- app_assoc.
      * unfold deliveries in *. simpl. rewrite omap_app, Hlen.
        by case_match.
Qed.

(** C7: when the publish of a message fails, that message is nacked with
    requeue, nothing more is pulled from the source, and -1 is returned;
    the messages moved before it stay in the destination, and the failing
    message and those behind it stay in the source. *)
Theorem C7_publish_failure_requeues_and_stops env source_queue target_queue
    queue_type original_args vhost batch_size fuel b pre m post dst e :
  connect_error env source_conn = None ->
  connect_error env target_conn = None ->
  source_queue ≠ target_queue ->
  b !! source_queue = Some (pre ++ m :: post) ->
  b !! target_queue = Some dst ->
  (forall i x, pre !! i = Some x -> publish_error env i x = None) ->
  publish_error env (length pre) m = Some e ->
  (length pre < fuel)%nat ->
  exists before after,
    move_messages env source_queue target_queue queue_type original_args
                  vhost batch_size fuel b
    = Some (-1,
            <[source_queue := m :: post]> (<[target_queue := dst ++ pre]> b),
            before
            ++ [ delivered (S (length pre)) m;
                 basic_publish "" target_queue m (Some e);
                 basic_nack (S (length pre)) true ]
            ++ after)
    /\ deliveries before = pre
    /\ existsb touches_source after = false.
Proof.
  intros Hs Ht Hne Hsrc Htgt Hok Hfail Hfuel.
  destruct (consume_loop_publish_failure env source_queue target_queue
              batch_size Hne pre fuel 0%nat b dst m post e)
    as (tr & Hrun & Hdel); try done.
  unfold move_messages. rewrite Hs, Ht, Htgt, Hrun. simpl.
  exists ([ BlockingConnection source_conn (utils.build_amqp_url vhost) None;
            BlockingConnection target_conn (utils.build_amqp_url vhost) None;
            confirm_delivery;
            queue_declare_passive target_queue None ]
          ++ tr ++ [consume_next source_queue None]),
         [ print ("Failed to move message: " +:+ e); cancel;
           close source_conn; close target_conn ].
  split; [|split].
  - do 2 f_equal. simpl. do 4 f_equal. by rewrite <- !app_assoc.
  - unfold deliveries in *. simpl. rewrite omap_app, Hdel. simpl.
    by rewrite app_nil_r.
  - reflexivity.
Qed.







(** X4: when a connection cannot be opened, [move_messages] returns -1
    after printing the error; the broker is as it was, no queue was
    declared or consumed, and only a connection that was opened is
    closed. No fuel is needed. *)
Theorem move_messages_connection_failure env source_queue target_queue
    queue_type original_args vhost batch_size fuel b e :
  connect_error env source_conn = Some e
  \/ connect_error env source_conn = None
     /\ connect_error env target_conn = Some e ->
  exists tr,
    move_messages env source_queue target_queue queue_type original_args
                  vhost batch_size fuel b
    = Some (-1, b, tr)
    /\ print ("Error during message transfer: " +:+ e) ∈ tr
    /\ existsb touches_source tr = false
    /\ omap close_of tr = omap open_of tr
    /\ (forall queue raised, queue_declare_passive queue raised ∉ tr).
Proof.
  unfold move_messages. intros [Hs|[Hs Ht]]; rewrite Hs; [|rewrite Ht].
  - eexists. split; [reflexivity|]. split; [|split; [done|split; [done|]]].
    + simpl. right. by left.
    + intros queue raised Hin. simpl in Hin.
      repeat (apply elem_of_cons in Hin as [Hin|Hin]; [done|]).
      by apply elem_of_nil in Hin.
  - eexists. split; [reflexivity|]. split; [|split; [done|split; [done|]]].
    + simpl. do 2 right. by left.
    + intros queue raised Hin. simpl in Hin.
      repeat (apply elem_of_cons in Hin as [Hin|Hin]; [done|]).
      by apply elem_of_nil in Hin.
Qed.

(** X5: when the source queue does not exist, the first pull raises:
    [move_messages] prints the error and returns -1, with the broker as
    it was and nothing delivered or published. *)
Theorem move_messages_missing_source env source_queue target_queue
    queue_type original_args vhost batch_size fuel b dst :
  connect_error env source_conn = None ->
  connect_error env target_conn = None ->
  b !! target_queue = Some dst ->
  b !! source_queue = None ->
  exists tr,
    move_messages env source_queue target_queue queue_type original_args
                  vhost batch_size (S fuel) b
    = Some (-1, b, tr)
    /\ print ("Error during message transfer: "
              +:+ missing_queue_error env source_queue) ∈ tr
    /\ deliveries tr = []
    /\ acks tr = []
    /\ omap close_of tr = [source_conn; target_conn].
Proof.
  intros Hs Ht Htgt Hsrc. unfold move_messages.
  rewrite Hs, Ht, Htgt. cbn [consume_loop]. rewrite Hsrc. simpl.
  eexists. split; [reflexivity|]. split; [|done].
  do 5 right. by left.
Qed.
End relocation_facts.

(** * Properties of runs *)
Section run_facts.
Context {World : Type} (handle : forall R, op R -> World -> reply R * World).

Lemma run_bind {A B} (p : prog A) (f : A -> prog B) w :
  run handle (bind p f) w
  = match run handle p w with
    | (Returned a, w1) => run handle (f a) w1
    | (Raised e, w1) => (Raised e, w1)
    end.
Proof.
  revert w. induction p as [a|e|R o k IH]; intros w; simpl; try done.
  destruct (handle R o w) as [r w1]. apply IH.
Qed.

Lemma trace_bind {A B} (p : prog A) (f : A -> prog B) w :
  trace handle (bind p f) w
  = trace handle p w
    ++ match run handle p w with
       | (Returned a, w1) => trace handle (f a) w1
       | (Raised _, _) => []
       end.
Proof.
  revert w. induction p as [a|e|R o k IH]; intros w; simpl; try done.
  destruct (handle R o w) as [r w1]. simpl. f_equal. apply IH.
Qed.

(** A [try] around a sequence: the handler sees what either part raises. *)
Lemma trace_try_except_bind {A B} (p : prog A) (f : A -> prog B) h w :
  trace handle (try_except (bind p f) h) w
  = trace handle p w
    ++ match run handle p w with
       | (Returned a, w1) => trace handle (try_except (f a) h) w1
       | (Raised e, w1) =>
           match h e with Some q => trace handle q w1 | None => [] end
       end.
Proof.
  revert w. induction p as [a|e|R o k IH]; intros w; simpl; try done.
  - by destruct (h e).
  - destruct (handle R o w) as [r w1]. simpl. f_equal. apply IH.
Qed.

Lemma trace_try_except {A} (p : prog A) h w :
  trace handle (try_except p h) w
  = trace handle p w
    ++ match run handle p w with
       | (Returned a, w1) => []
       | (Raised e, w1) =>
           match h e with Some q => trace handle q w1 | None => [] end
       end.
Proof.
  revert w. induction p as [a|e|R o k IH]; intros w; simpl; try done.
  - by destruct (h e).
  - destruct (handle R o w) as [r w1]. simpl. f_equal. apply IH.
Qed.

Lemma calls_only_bind {A B} P (p : prog A) (f : A -> prog B) :
  calls_only P p -> (forall a, calls_only P (f a)) ->
  calls_only P (bind p f).
Proof.
  intros Hp Hf. induction p as [a|e|R o k IH]; simpl in *; [done..|].
  destruct Hp as [Ho Hk]. split; [done|]. intros r. by apply IH.
Qed.

Lemma calls_only_trace {A} P (p : prog A) w :
  calls_only P p ->
  Forall (fun ev => match ev with Ev o _ => P _ o end) (trace handle p w).
Proof.
  revert w. induction p as [a|e|R o k IH]; intros w Hp; simpl in *;
    [by constructor..|].
  destruct Hp as [Ho Hk]. destruct (handle R o w) as [r w1].
  constructor; [done|]. by apply IH.
Qed.

Lemma calls_only_omap {A X} (f : event -> option X) (p : prog A) w :
  calls_only (fun R o => forall r, f (Ev o r) = None) p ->
  omap f (trace handle p w) = [].
Proof.
  intros Hp. apply (calls_only_trace _ _ w) in Hp.
  induction Hp as [|[R o r] tr Ho _ IH]; simpl; [done|]. by rewrite Ho.
Qed.

Lemma calls_only_not_omap {A X} (f : event -> option X) x (p : prog A) w :
  calls_only (fun R o => forall r, f (Ev o r) ≠ Some x) p ->
  x ∉ omap f (trace handle p w).
Proof.
  intros Hp. apply (calls_only_trace _ _ w) in Hp.
  induction Hp as [|[R o r] tr Ho _ IH]; simpl; [apply not_elem_of_nil|].
  specialize (Ho r). destruct (f (Ev o r)) as [y|]; [|done].
  apply not_elem_of_cons. split; [congruence|done].
Qed.

Lemma propagates_bind {A B} (p : prog A) (f : A -> prog B) :
  propagates p -> (forall a, propagates (f a)) -> propagates (bind p f).
Proof.
  intros Hp Hf. induction p as [a|e|R o k IH]; simpl in *; [done..|].
  destruct Hp as [Hv He]. split.
  - intros v. by apply IH.
  - intros e. by rewrite He.
Qed.

(** If such a program ends by raising, the trace shows a call that
    raised. *)
Lemma propagates_raised {A} (p : prog A) w e w1 :
  propagates p ->
  run handle p w = (Raised e, w1) ->
  omap observe.raise_of (trace handle p w) ≠ [].
Proof.
  revert w. induction p as [a|e0|R o k IH]; intros w Hp Hrun; simpl in *;
    [done..|].
  destruct Hp as [Hv He]. destruct (handle R o w) as [[v|e1] w2]; simpl.
  - by apply (IH _ w2).
  - done.
Qed.
End run_facts.

(** * Properties of queue_migrator.py *)
Section orchestrator_facts.
Import observe queue_utils queue_migrator.
Context `{Config}.
Context {World : Type} (handle : forall R, op R -> World -> reply R * World).

(** ** Names and URLs *)
Lemma append_length (s1 s2 : string) :
  String.length (s1 +:+ s2) = (String.length s1 + String.length s2)%nat.
Proof.
  induction s1 as [|c s1 IH]; [done|].
  change (S (String.length (s1 +:+ s2))
          = S (String.length s1 + String.length s2)).
  by rewrite IH.
Qed.

Lemma append_assoc (s1 s2 s3 : string) :
  (s1 +:+ s2) +:+ s3 = s1 +:+ (s2 +:+ s3).
Proof.
  induction s1 as [|c s1 IH]; [done|].
  change (String c ((s1 +:+ s2) +:+ s3) = String c (s1 +:+ (s2 +:+ s3))).
  by rewrite IH.
Qed.

Lemma temp_name_neq (name : string) : name +:+ "_temp_migrated" ≠ name.
Proof.
  intros Heq. apply (f_equal String.length) in Heq.
  rewrite append_length in Heq. simpl in Heq. lia.
Qed.

Lemma temp_url_neq (vhost name : string) :
  queue_url vhost (name +:+ "_temp_migrated")
  ≠ queue_url vhost name +:+ "?if-empty=true".
Proof.
  unfold queue_url. rewrite !append_assoc. intros Heq.
  do 4 apply String.app_inj in Heq. apply String.app_inj in Heq.
  discriminate.
Qed.

Lemma temp_queue_url_neq (vhost name : string) :
  queue_url vhost (name +:+ "_temp_migrated") ≠ queue_url vhost name.
Proof.
  unfold queue_url. intros Heq.
  do 4 apply String.app_inj in Heq. by apply temp_name_neq in Heq.
Qed.

(** ** Tactics for walking through a program *)

(** The test a program is waiting on, under its continuations. *)
Ltac destruct_head p :=
  lazymatch p with
  | bind ?q _ => destruct_head q
  | try_except ?q _ => destruct_head q
  | match negb ?x with _ => _ end =>
      tryif is_var x then destruct x else destruct x eqn:?
  | match ?x with _ => _ end =>
      tryif is_var x then destruct x else destruct x eqn:?
  end.

Ltac unfold_helpers :=
  unfold get_queue_settings, utils.get_policy_by_name, get_queue_bindings,
    create_queue, delete_queue, create_binding, move_messages, when,
    utils.send_api_request, logger.log_info, logger.log_error, print.

(** Proves that a program makes only calls of the kind [P]. *)
Ltac calls_only_tac :=
  repeat (cbn;
          match goal with
          | |- _ /\ _ => split
          | |- forall _, _ => intros ?
          | |- calls_only _ ?p => destruct_head p
          | |- propagates ?p => destruct_head p
          | |- True => exact I
          | |- _ = _ => reflexivity
          | |- _ ≠ _ => discriminate
          | |- _ => assumption
          end).

Lemma recreate_bindings_calls_only (P : forall R, op R -> Prop) vhost name
    bindings :
  (forall url body,
      P _ (SendApiRequest no_json "POST" url auth (Some utils.API_HEADERS)
                          body)) ->
  (forall s, P _ (LogInfo s)) ->
  (forall s, P _ (LogError s)) ->
  (forall s, P _ (Print s)) ->
  calls_only P (recreate_bindings vhost name bindings).
Proof.
  intros Hpost Hinfo Herror Hprint.
  induction bindings as [|binding rest IH]; [done|].
  cbn [recreate_bindings].
  destruct (opt_str_truthy (b_source binding)); [|done].
  unfold_helpers. calls_only_tac; done.
Qed.

Lemma recreate_bindings_no_transfer_error vhost name bindings :
  calls_only
    (fun R o => forall r,
         line_of (Ev o r)
         ≠ Some (to_log_error,
                 "Error during message transfer. Migration aborted."))
    (recreate_bindings vhost name bindings).
Proof.
  induction bindings as [|binding rest IH]; [done|].
  cbn [recreate_bindings].
  destruct (opt_str_truthy (b_source binding)); [|done].
  unfold_helpers. calls_only_tac.
Qed.

Lemma recreate_bindings_propagates vhost name bindings :
  propagates (recreate_bindings vhost name bindings).
Proof.
  induction bindings as [|binding rest IH]; [done|].
  cbn [recreate_bindings].
  destruct (opt_str_truthy (b_source binding)); [|done].
  unfold_helpers. calls_only_tac; done.
Qed.

(** Rewrites to [[]] what the observers see of a chunk that has nothing
    for them. *)
Ltac quiet_chunk p w :=
  repeat match goal with
         | |- context [omap ?f (trace handle p w)] =>
             lazymatch f with
             | line_of => fail
             | raise_of => fail
             | _ => idtac
             end;
             rewrite (calls_only_omap handle f p w)
               by (first [ apply recreate_bindings_calls_only;
                           intros; reflexivity
                         | unfold_helpers; calls_only_tac; fail ])
         end.

(** ** What the observers see of the helpers *)
Lemma moves_move_messages s t q a v w r w1 :
  run handle (move_messages s t q a v) w = (r, w1) ->
  omap move_of (trace handle (move_messages s t q a v) w)
  = match r with Returned n => [(s, t, n)] | Raised _ => [] end.
Proof.
  unfold move_messages. cbn.
  destruct (handle _ _ w) as [[n|e] w2]; cbn; by intros [= <- _].
Qed.

Lemma relocations_move_messages s t q a v w :
  omap relocation_of (trace handle (move_messages s t q a v) w) = [(s, t)].
Proof. unfold move_messages. cbn. by destruct (handle _ _ w) as [[n|e] w2]. Qed.

Lemma steps_move_messages s t q a v w :
  omap step_of (trace handle (move_messages s t q a v) w) = [relocation s t].
Proof. unfold move_messages. cbn. by destruct (handle _ _ w) as [[n|e] w2]. Qed.

Lemma delete_urls_delete_queue vhost name if_empty w :
  omap (url_of "DELETE") (trace handle (delete_queue vhost name if_empty) w)
  = [if if_empty then queue_url vhost name +:+ "?if-empty=true"
     else queue_url vhost name].
Proof.
  unfold_helpers. cbn.
  destruct (handle _ _ w) as [[v|e] w2]; cbn; [|done].
  destruct (accepted v _); cbn; by destruct (handle _ _ w2) as [[[]|e] w3].
Qed.

Lemma fetched_get_queue_bindings vhost name w r w1 :
  run handle (get_queue_bindings vhost name) w = (r, w1) ->
  omap bindings_of (trace handle (get_queue_bindings vhost name) w)
  = match r with Returned (Some bs) => [bs] | _ => [] end.
Proof.
  unfold_helpers. cbn.
  destruct (handle _ _ w) as [[v|e] w2]; cbn; [|by intros [= <- _]].
  destruct (accepted v [200]) as [resp|]; cbn; [by intros [= <- _]|].
  by destruct (handle _ _ w2) as [[[]|e] w3]; cbn; intros [= <- _].
Qed.

Lemma lines_log_info s w :
  omap line_of (trace handle (logger.log_info s) w) = [(to_log_info, s)].
Proof. unfold_helpers. cbn. by destruct (handle _ _ w) as [[[]|e] w2]. Qed.

Lemma lines_log_error s w :
  omap line_of (trace handle (logger.log_error s) w) = [(to_log_error, s)].
Proof. unfold_helpers. cbn. by destruct (handle _ _ w) as [[[]|e] w2]. Qed.

Lemma lines_print s w :
  omap line_of (trace handle (print s) w) = [(to_stdout, s)].
Proof. unfold_helpers. cbn. by destruct (handle _ _ w) as [[[]|e] w2]. Qed.

(** One statement of the [try] body: its trace is split off, rewritten
    where an observer has nothing to see in it, and the walk goes on
    with the way it ended. *)
Ltac walk_on p w :=
  rewrite ?omap_app; quiet_chunk p w;
  rewrite ?relocations_move_messages, ?steps_move_messages,
    ?delete_urls_delete_queue;
  let a := fresh "a" in
  let e := fresh "e" in
  let w1 := fresh "w" in
  let Hrun := fresh "Hrun" in
  destruct (run handle p w) as [[a|e] w1] eqn:Hrun;
  try rewrite (moves_move_messages _ _ _ _ _ _ _ _ Hrun);
  try rewrite (fetched_get_queue_bindings _ _ _ _ _ Hrun);
  [ idtac
  | destruct e; cbn [migrate_queue_except];
    match goal with
    | |- context [trace handle ?q w1] =>
        rewrite ?omap_app; quiet_chunk q w1
    | |- _ => idtac
    end ].

Ltac destruct_test p :=
  lazymatch p with
  | match negb ?x with _ => _ end =>
      (tryif is_var x then destruct x else destruct x eqn:?);
      cbn [negb]; cbv beta match
  | match ?x with _ => _ end =>
      (tryif is_var x then destruct x else destruct x eqn:?);
      cbv beta match
  end.

Ltac walk :=
  lazymatch goal with
  | |- context [trace handle (try_except ?p ?h) ?w] =>
      lazymatch p with
      | bind ?q ?f =>
          let k := fresh "k" in
          set (k := f);
          rewrite (trace_try_except_bind handle q k h w); walk_on q w;
          subst k; cbv beta
      | match _ with _ => _ end => destruct_test p
      | _ => rewrite (trace_try_except handle p h w); walk_on p w
      end
  end.

Lemma last_app_found {X} (l1 l2 : list X) x :
  last l2 = Some x -> last (l1 ++ l2) = Some x.
Proof. intros Hl. by rewrite last_app, Hl. Qed.

Lemma last_cons_found {X} (l : list X) x y :
  last l = Some x -> last (y :: l) = Some x.
Proof. intros Hl. rewrite last_cons. by rewrite Hl. Qed.

Ltac find_last :=
  first [ reflexivity
        | apply last_app_found; find_last
        | apply last_cons_found; find_last ].

(** Membership in a list made of known items and opaque segments. *)
Ltac find_in :=
  first [ apply list_elem_of_here
        | apply list_elem_of_further; find_in
        | apply elem_of_app; right; find_in
        | apply elem_of_app; left; find_in ].

(** Reads a membership hypothesis over a list of known items. *)
Ltac read_in H :=
  repeat first
    [ apply elem_of_nil in H; destruct H
    | apply elem_of_cons in H as [H|H];
      [ injection H as ?; subst;
        try match goal with
            | Hx : ?x +:+ "_temp_migrated" = ?x |- _ =>
                by destruct (temp_name_neq _ Hx)
            | Hx : ?x = ?x +:+ "_temp_migrated" |- _ =>
                symmetry in Hx; by destruct (temp_name_neq _ Hx)
            end
      | ] ].

(** When the counts of the two relocations differ, and the first did not
    fail, the procedure logs the mismatch, has sent no DELETE for the
    temporary queue, and does nothing to the broker after the return
    move. *)
Lemma mismatch_halts w vhost name target_type n m :
  (name, name +:+ "_temp_migrated", n)
    ∈ moves (trace handle (migrate_queue vhost name target_type) w) ->
  (name +:+ "_temp_migrated", name, m)
    ∈ moves (trace handle (migrate_queue vhost name target_type) w) ->
  n <> -1 -> m <> n ->
  (to_log_error,
   "Mismatch: moved " +:+ pretty n +:+ " to temp, but " +:+ pretty m
     +:+ " moved back to '" +:+ name +:+ "'. Investigate manually.")
    ∈ lines (trace handle (migrate_queue vhost name target_type) w)
  /\ (queue_url vhost (name +:+ "_temp_migrated")
       ∉ request_urls "DELETE"
           (trace handle (migrate_queue vhost name target_type) w))
  /\ last (steps (trace handle (migrate_queue vhost name target_type) w))
     = Some (relocation (name +:+ "_temp_migrated") name)
  /\ ((to_log_error, "Error during message transfer. Migration aborted.")
       ∉ lines (trace handle (migrate_queue vhost name target_type) w)).
Proof.
  unfold migrate_queue, migrate_queue_try.
  unfold mbind, prog_bind, moves, lines, request_urls, steps.
  rewrite trace_bind. rewrite ?omap_app.
  quiet_chunk (logger.log_info ("===== Starting migration of '" +:+ name
                 +:+ "' to '" +:+ target_type +:+ "' =====")) w.
  destruct (run handle (logger.log_info _) w) as [[[]|e] w0] eqn:Hstart.
  2:{ cbn. intros Hin. by apply elem_of_nil in Hin. }
  repeat walk.
  all: cbn [app omap]; intros Hfwd Hback Hn Hm.
  all: read_in Hfwd; read_in Hback.
  all: try match goal with
           | Heq : (_ =? _) = true |- _ => apply Z.eqb_eq in Heq; congruence
           end.
  all: try match goal with
           | Hr : run handle (when ((?x =? 0) && (?y =? 0)) _) _
                  = (Raised _, _) |- _ =>
               destruct (Z.eqb_spec x 0), (Z.eqb_spec y 0);
               [congruence | by cbn in Hr..]
           end.
  all: split; [|split; [|split]].
  all: try (rewrite ?lines_log_error; find_in).
  all: try (intros Hin; apply list_elem_of_singleton in Hin;
            by apply temp_url_neq in Hin).
  all: try find_last.
  all: repeat (apply not_elem_of_app; split).
  all: try apply not_elem_of_nil.
  all: apply calls_only_not_omap.
  all: first [ apply recreate_bindings_no_transfer_error
             | unfold_helpers; calls_only_tac ].
Qed.

(** A chunk that ended by raising shows up among the raises. *)
Ltac raised_chunk Hno :=
  match goal with
  | Hr : run handle ?p ?w = (Raised _, _) |- _ =>
      exfalso;
      refine (propagates_raised handle p w _ _ _ Hr _);
      [ first [ apply recreate_bindings_propagates
              | unfold_helpers; calls_only_tac; fail ]
      | repeat (apply app_eq_nil in Hno as [? Hno]); assumption ]
  end.

(** The two lines of the empty-queue branch. *)
Lemma lines_no_messages_info s w :
  (to_log_info, s)
    ∈ omap line_of
        (trace handle
           (when (0 =? 0) (bind (logger.log_info s) (fun _ => print s))) w).
Proof.
  cbn [Z.eqb when]. rewrite trace_bind, omap_app, lines_log_info.
  apply elem_of_app. left. apply list_elem_of_here.
Qed.

Lemma lines_no_messages_print s w a w1 :
  run handle (when (0 =? 0) (bind (logger.log_info s) (fun _ => print s))) w
  = (Returned a, w1) ->
  (to_stdout, s)
    ∈ omap line_of
        (trace handle
           (when (0 =? 0) (bind (logger.log_info s) (fun _ => print s))) w).
Proof.
  cbn [Z.eqb when]. rewrite run_bind, trace_bind, omap_app.
  destruct (run handle (logger.log_info s) w) as [[[]|e] w2]; [|done].
  intros _. rewrite lines_print.
  apply elem_of_app. right. apply list_elem_of_here.
Qed.

Ltac find_in_with tac :=
  first [ apply list_elem_of_here
        | tac
        | apply list_elem_of_further; find_in_with tac
        | apply elem_of_app; right; find_in_with tac
        | apply elem_of_app; left; find_in_with tac ].

(** The part of C5 that is about the orchestrator. *)
Lemma zero_moved_continues w vhost name target_type :
  (name, name +:+ "_temp_migrated", 0)
    ∈ moves (trace handle (migrate_queue vhost name target_type) w) ->
  (to_log_info,
   "No messages found in '" +:+ name +:+ "'. Continuing migration.")
    ∈ lines (trace handle (migrate_queue vhost name target_type) w)
  /\ (raises (trace handle (migrate_queue vhost name target_type) w) = [] ->
      (to_stdout,
       "No messages found in '" +:+ name +:+ "'. Continuing migration.")
        ∈ lines (trace handle (migrate_queue vhost name target_type) w)
      /\ queue_url vhost name +:+ "?if-empty=true"
           ∈ request_urls "DELETE"
               (trace handle (migrate_queue vhost name target_type) w)).
Proof.
  unfold migrate_queue, migrate_queue_try.
  unfold mbind, prog_bind, moves, lines, request_urls, raises.
  rewrite trace_bind. rewrite ?omap_app.
  quiet_chunk (logger.log_info ("===== Starting migration of '" +:+ name
                 +:+ "' to '" +:+ target_type +:+ "' =====")) w.
  destruct (run handle (logger.log_info _) w) as [[[]|e] w0] eqn:Hstart.
  2:{ cbn. intros Hin. by apply elem_of_nil in Hin. }
  repeat walk.
  all: cbn [app omap]; intros Hfwd.
  all: read_in Hfwd.
  all: try discriminate.
  all: split; [find_in_with ltac:(apply lines_no_messages_info)|].
  all: intros Hno.
  all: first
    [ split;
      [ find_in_with ltac:(eapply lines_no_messages_print; eassumption)
      | cbv match; find_in ]
    | raised_chunk Hno ].
Qed.

(** ** The REBIND loop *)

(** One [create_binding]: one POST, which passes the status test exactly
    when the function returns [True]. *)
Lemma create_binding_posts vhost exchange_name queue_name routing_key
    arguments w :
  exists ok,
    omap (request_of "POST" [201; 204])
         (trace handle (create_binding vhost exchange_name queue_name
                                       routing_key arguments) w)
    = [(binding_url vhost exchange_name queue_name,
        Some (binding_payload routing_key (default ∅ arguments)), ok)]
    /\ (forall w1,
          run handle (create_binding vhost exchange_name queue_name
                                     routing_key arguments) w
          = (Returned true, w1) -> ok = true)
    /\ (forall w1,
          run handle (create_binding vhost exchange_name queue_name
                                     routing_key arguments) w
          = (Returned false, w1) -> ok = false).
Proof.
  unfold_helpers. cbn.
  destruct (handle _ _ w) as [[v|e] w2]; cbn.
  - destruct (accepted v [201; 204]) as [resp|] eqn:Hacc; cbn;
      destruct (handle _ _ w2) as [[[]|e] w3]; cbn;
      (eexists; split; [reflexivity|]; split; intros w1 [=]; done).
  - eexists. split; [reflexivity|]. split; intros w1 [=].
Qed.

(** The loop sends the requests of the bindings in order, stops at the
    first one that fails, and returns [true] only when all were sent and
    passed. *)
Lemma recreate_bindings_posts vhost name bindings w :
  let posts :=
    omap (request_of "POST" [201; 204])
         (trace handle (recreate_bindings vhost name bindings) w) in
  posts.*1 `prefix_of` spec.binding_requests vhost name bindings
  /\ (forall ps p, posts = ps ++ [p] -> Forall (fun x => x.2 = true) ps)
  /\ (forall w1,
        run handle (recreate_bindings vhost name bindings) w
        = (Returned true, w1) ->
        posts = (fun x => (x, true)) <$> spec.binding_requests vhost name
                                                               bindings).
Proof.
  revert w. induction bindings as [|b rest IH]; intros w.
  { cbn. split; [done|]. split; [|done]. intros ps p Hnil. by destruct ps. }
  cbn [recreate_bindings spec.binding_requests omap list_omap].
  destruct (opt_str_truthy (b_source b)); [|apply IH].
  unfold mbind, prog_bind. rewrite trace_bind, run_bind, omap_app.
  destruct (create_binding_posts vhost (default "" (b_source b)) name
              (default "" (b_routing_key b))
              (Some (default ∅ (b_arguments b))) w)
    as (ok & -> & Htrue & Hfalse).
  destruct (run handle (create_binding _ _ _ _ _) w) as [[[]|e] w1];
    cbn [negb].
  - (* created: the loop goes on *)
    rewrite (Htrue w1 eq_refl).
    destruct (IH w1) as (Hprefix & Hlast & Hall).
    cbn [app fmap list_fmap]. split; [|split].
    + by apply prefix_cons.
    + intros ps p Heq. destruct ps as [|q ps]; [constructor|].
      injection Heq as <- Heq. constructor; [done|]. by eapply Hlast.
    + intros w2 Hrun. by rewrite (Hall w2 Hrun).
  - (* not created: the loop returns *)
    rewrite (Hfalse w1 eq_refl).
    rewrite (calls_only_omap handle _ (bind _ _) w1)
      by (unfold_helpers; calls_only_tac).
    cbn [app fmap list_fmap]. split; [|split].
    + apply prefix_cons, prefix_nil.
    + intros ps p Heq. destruct ps as [|q ps]; [constructor|].
      injection Heq as _ Heq. by destruct ps.
    + intros w2. unfold_helpers. cbn.
      destruct (handle _ _ w1) as [[[]|e] w3]; cbn; [|done].
      by destruct (handle _ _ w3) as [[[]|e] w4].
  - (* the call raised *)
    cbn [app fmap list_fmap]. split; [|split].
    + apply prefix_cons, prefix_nil.
    + intros ps p Heq. destruct ps as [|q ps]; [constructor|].
      injection Heq as _ Heq. by destruct ps.
    + done.
Qed.

Ltac read_url_in H :=
  repeat first
    [ apply elem_of_nil in H; destruct H
    | apply elem_of_cons in H as [H|H];
      [ try (by apply temp_url_neq in H) | ] ].

(** REBIND within the whole procedure: the POSTs of a run are those of
    the loop. *)
Lemma rebind_in_migrate_queue w vhost name target_type bindings posts :
  fetched_bindings (trace handle (migrate_queue vhost name target_type) w)
  = Some bindings ->
  requests "POST" [201; 204]
           (trace handle (migrate_queue vhost name target_type) w)
  = posts ->
  posts.*1 `prefix_of` spec.binding_requests vhost name bindings
  /\ (forall ps p, posts = ps ++ [p] -> Forall (fun x => x.2 = true) ps)
  /\ ((name +:+ "_temp_migrated", name)
        ∈ relocations (trace handle (migrate_queue vhost name target_type) w)
      \/ queue_url vhost (name +:+ "_temp_migrated")
           ∈ request_urls "DELETE"
               (trace handle (migrate_queue vhost name target_type) w) ->
      posts = (fun x => (x, true))
                <$> spec.binding_requests vhost name bindings).
Proof.
  unfold migrate_queue, migrate_queue_try.
  unfold mbind, prog_bind, fetched_bindings, requests, relocations,
    request_urls.
  rewrite trace_bind. rewrite ?omap_app.
  quiet_chunk (logger.log_info ("===== Starting migration of '" +:+ name
                 +:+ "' to '" +:+ target_type +:+ "' =====")) w.
  destruct (run handle (logger.log_info _) w) as [[[]|e] w0] eqn:Hstart.
  2:{ cbn. intros [=]. }
  repeat walk.
  all: cbn [app omap list_omap head]; intros Hfetch Hposts.
  all: try discriminate Hfetch.
  all: injection Hfetch as ->; subst posts.
  all: rewrite ?app_nil_r.
  all: try match goal with
           | |- context [trace handle (recreate_bindings ?v ?n ?l) ?w0] =>
               destruct (recreate_bindings_posts v n l w0)
                 as (Hprefix & Hlast & Hall)
           end.
  all: split; [first [exact Hprefix | apply prefix_nil]|].
  all: split; [first [exact Hlast | intros ps p Hnil; by destruct ps]|].
  all: intros [Hmove|Hdelete];
    [read_in Hmove | cbv match in Hdelete; read_url_in Hdelete].
  all: eapply Hall; eassumption.
Qed.

(** When no call raises, the loop ends in one of two ways: every request
    was sent and passed, or the requests were sent up to the first that
    did not pass. *)
Lemma recreate_bindings_outcome vhost name bindings w :
  omap raise_of (trace handle (recreate_bindings vhost name bindings) w)
  = [] ->
  spec.rebind_outcome
    (spec.binding_requests vhost name bindings)
    (omap (request_of "POST" [201; 204])
          (trace handle (recreate_bindings vhost name bindings) w)).
Proof.
  revert w. induction bindings as [|b rest IH]; intros w.
  { intros _. by left. }
  cbn [recreate_bindings spec.binding_requests omap list_omap].
  destruct (opt_str_truthy (b_source b)); [|apply IH].
  unfold mbind, prog_bind. rewrite trace_bind, !omap_app.
  intros [Hfirst Hrest]%app_eq_nil.
  destruct (create_binding_posts vhost (default "" (b_source b)) name
              (default "" (b_routing_key b))
              (Some (default ∅ (b_arguments b))) w)
    as (ok & -> & Htrue & Hfalse).
  destruct (run handle (create_binding _ _ _ _ _) w) as [[[]|e] w1]
    eqn:Hrun; cbn [negb] in *.
  - (* created: the loop goes on *)
    rewrite (Htrue w1 eq_refl).
    destruct (IH w1 Hrest) as [Hall|(sent & x & rest' & Hwanted & Hposts)].
    + left. cbn [app fmap list_fmap]. by f_equal.
    + right. eexists (_ :: sent), x, rest'. cbn [app fmap list_fmap].
      split; by f_equal.
  - (* not created: the loop returns *)
    rewrite (Hfalse w1 eq_refl).
    rewrite (calls_only_omap handle _ (bind _ _) w1)
      by (unfold_helpers; calls_only_tac).
    right. by eexists [], _, _.
  - (* the call raised *)
    exfalso. refine (propagates_raised handle _ w _ _ _ Hrun Hfirst).
    unfold_helpers. calls_only_tac.
Qed.

(** One [create_queue]: one PUT with the flag and the arguments given,
    which passes the status test exactly when the function returns
    [True]. *)
Lemma puts_create_queue vhost name durable arguments w :
  exists ok,
    omap (request_of "PUT" [201; 204])
         (trace handle (create_queue vhost name durable arguments) w)
    = [(queue_url vhost name, Some (queue_payload durable arguments), ok)]
    /\ (forall w1,
          run handle (create_queue vhost name durable arguments) w
          = (Returned true, w1) -> ok = true)
    /\ (forall w1,
          run handle (create_queue vhost name durable arguments) w
          = (Returned false, w1) -> ok = false).
Proof.
  unfold_helpers. cbn.
  destruct (handle _ _ w) as [[v|e] w2]; cbn.
  - destruct (accepted v [201; 204]) as [resp|] eqn:Hacc; cbn;
      destruct (handle _ _ w2) as [[[]|e] w3]; cbn;
      (eexists; split; [reflexivity|]; split; intros w1 [=]; done).
  - eexists. split; [reflexivity|]. split; intros w1 [=].
Qed.

(** Reads a membership among the PUTs of a migration. *)
Ltac read_put_in H :=
  repeat first
    [ apply elem_of_nil in H; destruct H
    | apply elem_of_app in H as [H|H]
    | apply elem_of_cons in H as [H|H];
      [ first [ discriminate H
              | apply (f_equal (fun x => x.1.1)) in H; cbn [fst snd] in H;
                symmetry in H; by destruct (temp_queue_url_neq _ _ H) ]
      | ] ].

(** REBIND is carried out: once the original queue was created again and
    as long as no call raises, the POSTs of a run are those of the loop
    that ran to its end. *)
Lemma rebind_is_carried_out w vhost name target_type :
  forall fb posts puts rs,
    fetched_bindings (trace handle (migrate_queue vhost name target_type) w)
    = fb ->
    requests "POST" [201; 204]
             (trace handle (migrate_queue vhost name target_type) w)
    = posts ->
    requests "PUT" [201; 204]
             (trace handle (migrate_queue vhost name target_type) w)
    = puts ->
    raises (trace handle (migrate_queue vhost name target_type) w) = rs ->
    forall bindings body,
      fb = Some bindings ->
      (queue_url vhost name, body, true) ∈ puts ->
      rs = [] ->
      spec.rebind_outcome (spec.binding_requests vhost name bindings) posts.
Proof.
  unfold migrate_queue, migrate_queue_try.
  unfold mbind, prog_bind, fetched_bindings, requests, raises.
  rewrite trace_bind. rewrite ?omap_app.
  quiet_chunk (logger.log_info ("===== Starting migration of '" +:+ name
                 +:+ "' to '" +:+ target_type +:+ "' =====")) w.
  destruct (run handle (logger.log_info _) w) as [[[]|e] w0] eqn:Hstart.
  2:{ cbn. by intros fb posts puts rs <- <- <- <- bindings body [=]. }
  repeat walk.
  all: cbn [app omap list_omap head];
    intros fb posts puts rs <- <- <- <- bindings body Hfetch Hput Hno.
  all: try discriminate Hfetch.
  all: first
    [ raised_chunk Hno
    | injection Hfetch as ->;
      repeat match type of Hput with
             | context [omap (request_of "PUT" _)
                             (trace handle (create_queue ?v ?n ?d ?a) ?w)] =>
                 let ok := fresh "ok" in
                 let Heq := fresh "Heq" in
                 let Ht := fresh "Ht" in
                 let Hf := fresh "Hf" in
                 destruct (puts_create_queue v n d a w)
                   as (ok & Heq & Ht & Hf);
                 rewrite Heq in Hput; clear Heq;
                 try match goal with
                     | Hr : run handle (create_queue v n d a) w
                            = (Returned false, _) |- _ =>
                         pose proof (Hf _ Hr); subst ok
                     end
             end;
      first
        [ by read_put_in Hput
        | rewrite ?app_nil_r;
          apply recreate_bindings_outcome;
          repeat (apply app_eq_nil in Hno as [? Hno]); assumption ] ].
Qed.

(** ** The claims about the orchestrator *)

(** C1: when the forward move returned [n] and the return move returned
    [m], both counts of messages, and [m] differs from [n], the procedure
    halts: it logs the mismatch, sends no DELETE for the temporary queue,
    and the return move is the last thing it does to the broker. *)
Theorem C1_count_mismatch_keeps_temp_queue w vhost name target_type n m :
  (name, name +:+ "_temp_migrated", n)
    ∈ moves (trace handle (migrate_queue vhost name target_type) w) ->
  (name +:+ "_temp_migrated", name, m)
    ∈ moves (trace handle (migrate_queue vhost name target_type) w) ->
  0 <= n -> 0 <= m -> m <> n ->
  (to_log_error,
   "Mismatch: moved " +:+ pretty n +:+ " to temp, but " +:+ pretty m
     +:+ " moved back to '" +:+ name +:+ "'. Investigate manually.")
    ∈ lines (trace handle (migrate_queue vhost name target_type) w)
  /\ (queue_url vhost (name +:+ "_temp_migrated")
       ∉ request_urls "DELETE"
           (trace handle (migrate_queue vhost name target_type) w))
  /\ last (steps (trace handle (migrate_queue vhost name target_type) w))
     = Some (relocation (name +:+ "_temp_migrated") name).
Proof.
  intros Hfwd Hback Hn Hm Hne.
  destruct (mismatch_halts w vhost name target_type n m)
    as (Hline & Hdelete & Hlast & _); [done|done|lia|done|].
  done.
Qed.

(** C10: when the forward move returned a count [n] and the return move
    returned -1, the procedure halts through the mismatch branch: it logs
    a mismatch between [n] and -1, never logs the transfer error, sends
    no DELETE for the temporary queue, and the return move is the last
    thing it does to the broker. *)
Theorem C10_failed_return_move_is_a_mismatch w vhost name target_type n :
  (name, name +:+ "_temp_migrated", n)
    ∈ moves (trace handle (migrate_queue vhost name target_type) w) ->
  (name +:+ "_temp_migrated", name, -1)
    ∈ moves (trace handle (migrate_queue vhost name target_type) w) ->
  0 <= n ->
  (to_log_error,
   "Mismatch: moved " +:+ pretty n +:+ " to temp, but -1 moved back to '"
     +:+ name +:+ "'. Investigate manually.")
    ∈ lines (trace handle (migrate_queue vhost name target_type) w)
  /\ ((to_log_error, "Error during message transfer. Migration aborted.")
       ∉ lines (trace handle (migrate_queue vhost name target_type) w))
  /\ (queue_url vhost (name +:+ "_temp_migrated")
       ∉ request_urls "DELETE"
           (trace handle (migrate_queue vhost name target_type) w))
  /\ last (steps (trace handle (migrate_queue vhost name target_type) w))
     = Some (relocation (name +:+ "_temp_migrated") name).
Proof.
  intros Hfwd Hback Hn.
  destruct (mismatch_halts w vhost name target_type n (-1))
    as (Hline & Hdelete & Hlast & Herror); [done|done|lia|lia|].
  split; [|done].
  replace (" to temp, but -1 moved back to '" +:+ name
           +:+ "'. Investigate manually.")
    with (" to temp, but " +:+ pretty (-1) +:+ " moved back to '" +:+ name
          +:+ "'. Investigate manually."); [done|].
  rewrite <- !append_assoc. reflexivity.
Qed.

(** C2, as the code has it: with [bindings] the list fetched before the
    migration, the POSTs of a run are, in order, those of the bindings
    that name a source exchange, each with the binding's exchange,
    routing key and arguments; every POST before the last one passed.
    REBIND is carried out: once the original queue was created again,
    and unless a call raises, the POSTs are those of all these bindings,
    or those up to the first that does not pass, after which nothing is
    moved back and the temporary queue is kept. And once the return
    move is started (or the temporary queue is deleted) each of them was
    sent and passed. A binding without a source exchange gets no
    request. *)
Theorem C2_bindings_with_source_recreated_in_order w vhost name target_type
    bindings :
  fetched_bindings (trace handle (migrate_queue vhost name target_type) w)
  = Some bindings ->
  (requests "POST" [201; 204]
            (trace handle (migrate_queue vhost name target_type) w)).*1
    `prefix_of` spec.binding_requests vhost name bindings
  /\ (forall ps p,
        requests "POST" [201; 204]
                 (trace handle (migrate_queue vhost name target_type) w)
        = ps ++ [p] ->
        Forall (fun x => x.2 = true) ps)
  /\ (forall body,
        (queue_url vhost name, body, true)
          ∈ requests "PUT" [201; 204]
              (trace handle (migrate_queue vhost name target_type) w) ->
        raises (trace handle (migrate_queue vhost name target_type) w) = [] ->
        spec.rebind_outcome
          (spec.binding_requests vhost name bindings)
          (requests "POST" [201; 204]
                    (trace handle (migrate_queue vhost name target_type) w)))
  /\ (forall x,
        (x, false)
          ∈ requests "POST" [201; 204]
              (trace handle (migrate_queue vhost name target_type) w) ->
        ((name +:+ "_temp_migrated", name)
           ∉ relocations
               (trace handle (migrate_queue vhost name target_type) w))
        /\ (queue_url vhost (name +:+ "_temp_migrated")
              ∉ request_urls "DELETE"
                  (trace handle (migrate_queue vhost name target_type) w)))
  /\ ((name +:+ "_temp_migrated", name)
        ∈ relocations (trace handle (migrate_queue vhost name target_type) w)
      \/ queue_url vhost (name +:+ "_temp_migrated")
           ∈ request_urls "DELETE"
               (trace handle (migrate_queue vhost name target_type) w) ->
      requests "POST" [201; 204]
               (trace handle (migrate_queue vhost name target_type) w)
      = (fun x => (x, true)) <$> spec.binding_requests vhost name bindings)
  /\ (forall b,
        b ∈ bindings ->
        opt_str_truthy (b_source b) = true ->
        (name +:+ "_temp_migrated", name)
          ∈ relocations
              (trace handle (migrate_queue vhost name target_type) w) ->
        (binding_url vhost (default "" (b_source b)) name,
         Some (binding_payload (default "" (b_routing_key b))
                               (default ∅ (b_arguments b))),
         true)
          ∈ requests "POST" [201; 204]
              (trace handle (migrate_queue vhost name target_type) w)).
Proof.
  intros Hfetch.
  destruct (rebind_in_migrate_queue w vhost name target_type bindings _
              Hfetch eq_refl) as (Hprefix & Hlast & Hall).
  split; [done|]. split; [done|].
  split.
  { intros body Hput Hno.
    by apply (rebind_is_carried_out w vhost name target_type _ _ _ _
                eq_refl eq_refl eq_refl eq_refl bindings body). }
  split.
  { intros x Hfailed.
    split; intros Hlater;
      [rewrite Hall in Hfailed by by left
      |rewrite Hall in Hfailed by by right];
      apply list_elem_of_fmap in Hfailed as (y & [=] & _). }
  split; [done|].
  intros b Hb Hsource Hmove. rewrite Hall by by left.
  apply list_elem_of_fmap. eexists. split; [reflexivity|].
  unfold spec.binding_requests. apply list_elem_of_omap.
  exists b. split; [done|]. by rewrite Hsource.
Qed.

(** C5: a relocation from an empty source queue returns 0 and leaves the
    broker as it was; and when the forward move returned 0,
    [migrate_queue] logs that no messages were found and, unless a call
    raises, prints it and goes on to delete the original queue. *)
Theorem C5_empty_source_is_success env source_queue target_queue queue_type
    original_args relocation_vhost batch_size fuel b dst
    w vhost name target_type :
  message_utils.connect_error env message_utils.source_conn = None ->
  message_utils.connect_error env message_utils.target_conn = None ->
  b !! target_queue = Some dst ->
  b !! source_queue = Some [] ->
  (name, name +:+ "_temp_migrated", 0)
    ∈ moves (trace handle (migrate_queue vhost name target_type) w) ->
  (exists tr,
      message_utils.move_messages env source_queue target_queue queue_type
        original_args relocation_vhost batch_size (S fuel) b
      = Some (0, b, tr))
  /\ (to_log_info,
      "No messages found in '" +:+ name +:+ "'. Continuing migration.")
       ∈ lines (trace handle (migrate_queue vhost name target_type) w)
  /\ (raises (trace handle (migrate_queue vhost name target_type) w) = [] ->
      (to_stdout,
       "No messages found in '" +:+ name +:+ "'. Continuing migration.")
        ∈ lines (trace handle (migrate_queue vhost name target_type) w)
      /\ queue_url vhost name +:+ "?if-empty=true"
           ∈ request_urls "DELETE"
               (trace handle (migrate_queue vhost name target_type) w)).
Proof.
  intros Hs Ht Htgt Hsrc Hfwd. split.
  - by eapply move_messages_empty_source.
  - by apply zero_moved_continues.
Qed.

(** ** More on what the observers see of the helpers *)
Lemma steps_get_queue_settings vhost name w :
  omap step_of (trace handle (get_queue_settings vhost name) w)
  = [request "GET" (queue_url vhost name)].
Proof.
  unfold_helpers. cbn.
  destruct (handle _ _ w) as [[v|e] w2]; cbn; [|done].
  destruct (accepted v _); cbn; [done|].
  by destruct (handle _ _ w2) as [[[]|e] w3].
Qed.

Lemma steps_get_policy_by_name vhost policy_name w :
  omap step_of (trace handle (utils.get_policy_by_name vhost policy_name) w)
  = if opt_str_truthy policy_name
    then [request "GET" (policies_url vhost)] else [].
Proof.
  unfold_helpers. destruct (opt_str_truthy policy_name); cbn; [|done].
  destruct (handle _ _ w) as [[v|e] w2]; cbn; [|done].
  by destruct (accepted v _).
Qed.

Lemma steps_get_queue_bindings vhost name w :
  omap step_of (trace handle (get_queue_bindings vhost name) w)
  = [request "GET" (bindings_url vhost name)].
Proof.
  unfold_helpers. cbn.
  destruct (handle _ _ w) as [[v|e] w2]; cbn; [|done].
  destruct (accepted v _); cbn; [done|].
  by destruct (handle _ _ w2) as [[[]|e] w3].
Qed.

Lemma steps_create_queue vhost name durable arguments w :
  omap step_of (trace handle (create_queue vhost name durable arguments) w)
  = [request "PUT" (queue_url vhost name)].
Proof.
  unfold_helpers. cbn.
  destruct (handle _ _ w) as [[v|e] w2]; cbn; [|done].
  destruct (accepted v _); cbn; by destruct (handle _ _ w2) as [[[]|e] w3].
Qed.

Lemma steps_delete_queue vhost name if_empty w :
  omap step_of (trace handle (delete_queue vhost name if_empty) w)
  = [request "DELETE"
       (if if_empty then queue_url vhost name +:+ "?if-empty=true"
        else queue_url vhost name)].
Proof.
  unfold_helpers. cbn.
  destruct (handle _ _ w) as [[v|e] w2]; cbn; [|done].
  destruct (accepted v _); cbn; by destruct (handle _ _ w2) as [[[]|e] w3].
Qed.

Lemma steps_create_binding vhost exchange_name queue_name routing_key
    arguments w :
  omap step_of (trace handle (create_binding vhost exchange_name queue_name
                                             routing_key arguments) w)
  = [request "POST" (binding_url vhost exchange_name queue_name)].
Proof.
  unfold_helpers. cbn.
  destruct (handle _ _ w) as [[v|e] w2]; cbn; [|done].
  destruct (accepted v _); cbn; by destruct (handle _ _ w2) as [[[]|e] w3].
Qed.

(** The steps of the REBIND loop: the POSTs of the bindings, in order,
    up to the first that fails; all of them when the loop returns
    [true]. *)
Lemma recreate_bindings_steps vhost name bindings w :
  omap step_of (trace handle (recreate_bindings vhost name bindings) w)
    `prefix_of` ((fun x => request "POST" x.1)
                   <$> spec.binding_requests vhost name bindings)
  /\ (forall w1,
        run handle (recreate_bindings vhost name bindings) w
        = (Returned true, w1) ->
        omap step_of (trace handle (recreate_bindings vhost name bindings) w)
        = (fun x => request "POST" x.1)
            <$> spec.binding_requests vhost name bindings).
Proof.
  revert w. induction bindings as [|b rest IH]; intros w.
  { cbn. done. }
  cbn [recreate_bindings spec.binding_requests omap list_omap].
  destruct (opt_str_truthy (b_source b)); [|apply IH].
  unfold mbind, prog_bind. rewrite trace_bind, run_bind, omap_app.
  rewrite steps_create_binding.
  destruct (run handle (create_binding _ _ _ _ _) w) as [[[]|e] w1];
    cbn [negb app fmap list_fmap fst].
  - destruct (IH w1) as [Hprefix Hall]. split.
    + by apply prefix_cons.
    + intros w2 Hrun. by rewrite (Hall w2 Hrun).
  - rewrite (calls_only_omap handle _ (bind _ _) w1)
      by (unfold_helpers; calls_only_tac).
    split; [apply prefix_cons, prefix_nil|].
    intros w2. unfold_helpers. cbn.
    destruct (handle _ _ w1) as [[[]|e] w3]; cbn; [|done].
    by destruct (handle _ _ w3) as [[[]|e] w4].
  - split; [apply prefix_cons, prefix_nil|done].
Qed.

(** A line is among those of a run exactly when some call said it. *)
Lemma said_lines x (tr : list event) :
  x ∈ lines tr <-> omap (said x) tr <> [].
Proof.
  unfold lines. induction tr as [|ev tr IH]; simpl.
  { split; [by intros ?%elem_of_nil|done]. }
  unfold said at 1. destruct (line_of ev) as [[k s]|]; [|done].
  destruct x as [k' s']. simpl.
  destruct (sink_eqb k k' && String.eqb s s') eqn:Heq.
  - apply andb_true_iff in Heq as [Hk Hs]. apply String.eqb_eq in Hs as ->.
    assert (k = k') as -> by (by destruct k, k').
    split; [done|]. intros _. apply list_elem_of_here.
  - rewrite elem_of_cons, IH. split; [|by right].
    intros [[= <- <-]|?]; [|done].
    rewrite String.eqb_refl, andb_true_r in Heq. by destruct k'.
Qed.

Lemma said_log_error s w :
  omap (said (to_log_error, s)) (trace handle (logger.log_error s) w)
  = [tt].
Proof.
  unfold_helpers. cbn. unfold said.
  destruct (handle _ _ w) as [[[]|e] w2]; cbn; by rewrite String.eqb_refl.
Qed.

Lemma said_print s w :
  omap (said (to_stdout, s)) (trace handle (print s) w) = [tt].
Proof.
  unfold_helpers. cbn. unfold said.
  destruct (handle _ _ w) as [[[]|e] w2]; cbn; by rewrite String.eqb_refl.
Qed.

(** Proves that a program never gives a line, by comparing the texts. *)
Ltac never_said_tac :=
  repeat (cbn;
          match goal with
          | |- _ /\ _ => split
          | |- forall _, _ => intros ?
          | |- calls_only _ ?p => destruct_head p
          | |- True => exact I
          | |- _ = _ => lazy; reflexivity
          end).

Lemma recreate_bindings_never_says x vhost name bindings :
  (x.1 = to_stdout ->
   x.2 <> "[Migration halted] Could not recreate bindings. Investigate manually.") ->
  (x.1 = to_log_info -> False) ->
  (x.1 = to_log_error -> String.get 0 x.2 <> Some "F"%char) ->
  calls_only (fun R o => forall r, said x (Ev o r) = None)
             (recreate_bindings vhost name bindings).
Proof.
  destruct x as [k s]. simpl. intros Hout Hinfo Herror.
  assert (Hsaid : forall R (o : op R) r k' s',
             line_of (Ev o r) = Some (k', s') ->
             (k' = k -> s' <> s) -> said (k, s) (Ev o r) = None).
  { intros R o r k' s' Hline Hne. unfold said. rewrite Hline. simpl.
    destruct (sink_eqb k' k) eqn:Hk; [|done].
    assert (k' = k) as Heq by (by destruct k', k).
    by rewrite (proj2 (String.eqb_neq _ _) (Hne Heq)). }
  induction bindings as [|binding rest IH]; [done|].
  cbn [recreate_bindings].
  destruct (opt_str_truthy (b_source binding)); [|done].
  unfold_helpers. cbn. split; [done|]. intros [v|e]; cbn; [|done].
  destruct (accepted v _); cbn.
  - split; [|intros [[]|e]; cbn; done].
    intros ?. eapply Hsaid; [reflexivity|]. intros <-. by destruct Hinfo.
  - split; [|intros [[]|e]; cbn; [|done]].
    + intros ?. eapply Hsaid; [reflexivity|].
      intros <- <-. by apply Herror.
    + split; [|intros [[]|e]; cbn; [|done]].
      * intros ?. eapply Hsaid; [reflexivity|].
        intros <- <-. by apply Herror.
      * split; [|intros [[]|e]; cbn; done].
        intros ?. eapply Hsaid; [reflexivity|].
        intros <- <-. by apply Hout.
Qed.

(** Rewrites to [[]] what [said] sees of a chunk that never gives the
    line. *)
Ltac quiet_said p w :=
  repeat match goal with
         | |- context [omap (said ?x) (trace handle p w)] =>
             rewrite (calls_only_omap handle (said x) p w)
               by (first [ apply recreate_bindings_never_says;
                           cbn; intros; first [discriminate | congruence]
                         | unfold_helpers; never_said_tac; fail ])
         end.

(** The walk of [walk], with the steps of every helper rewritten on the
    way. *)
Ltac walk_steps_on p w :=
  rewrite ?omap_app; quiet_chunk p w; quiet_said p w;
  rewrite ?steps_get_queue_settings, ?steps_get_policy_by_name,
    ?steps_get_queue_bindings, ?steps_create_queue, ?steps_delete_queue,
    ?steps_move_messages, ?said_log_error, ?said_print;
  let a := fresh "a" in
  let e := fresh "e" in
  let w1 := fresh "w" in
  let Hrun := fresh "Hrun" in
  destruct (run handle p w) as [[a|e] w1] eqn:Hrun;
  try rewrite (moves_move_messages _ _ _ _ _ _ _ _ Hrun);
  try rewrite (fetched_get_queue_bindings _ _ _ _ _ Hrun);
  [ idtac
  | destruct e; cbn [migrate_queue_except];
    match goal with
    | |- context [trace handle ?q w1] =>
        rewrite ?omap_app; quiet_chunk q w1; quiet_said q w1
    | |- _ => idtac
    end ].

Ltac walk_steps :=
  lazymatch goal with
  | |- context [trace handle (try_except ?p ?h) ?w] =>
      lazymatch p with
      | bind ?q ?f =>
          let k := fresh "k" in
          set (k := f);
          rewrite (trace_try_except_bind handle q k h w);
          walk_steps_on q w;
          subst k; cbv beta
      | match _ with _ => _ end => destruct_test p
      | _ => rewrite (trace_try_except handle p h w); walk_steps_on p w
      end
  end.

(** A prefix of the steps of a migration. *)
Ltac solve_prefix :=
  repeat first
    [ apply prefix_nil
    | apply prefix_cons
    | match goal with
      | Hr : run handle (recreate_bindings ?v ?n ?l) ?w0 = (Returned true, _)
        |- context [trace handle (recreate_bindings ?v ?n ?l) ?w0] =>
          rewrite (proj2 (recreate_bindings_steps v n l w0) _ Hr);
          apply prefix_app
      | |- context [trace handle (recreate_bindings ?v ?n ?l) ?w0] =>
          rewrite ?app_nil_r; apply prefix_app_r;
          apply (proj1 (recreate_bindings_steps v n l w0))
      end ].

(** The steps are those of a migration that ran to its end. *)
Ltac solve_complete :=
  match goal with
  | Hr : run handle (recreate_bindings ?v ?n ?l) ?w0 = (Returned true, _),
    s : settings,
    Hsame : (_ =? ?x) = true,
    Hmoved : (?x =? -1) = false |- _ =>
      rewrite (proj2 (recreate_bindings_steps v n l w0) _ Hr);
      apply Z.eqb_eq in Hsame as ->; apply Z.eqb_neq in Hmoved;
      exists (opt_str_truthy (s_policy s)), l, x;
      split; [reflexivity|];
      split; [unfold spec.migration_steps;
              by destruct (opt_str_truthy (s_policy s))|];
      split; [reflexivity|assumption]
  end.

(** The forward move returned -1. *)
Ltac solve_forward_failure H :=
  read_in H;
  try match goal with
      | Heq : (_ =? _) = false |- _ => by cbn in Heq
      end;
  try match goal with
      | Hr : run handle (when (-1 =? 0) _) _ = (Raised _, _) |- _ =>
          by cbn in Hr
      end;
  try match goal with
      | |- context [if ?b then _ else _] => destruct b
      end;
  cbn [app];
  (split; [done|]);
  (split; [find_last|]);
  let Hin := fresh "Hin" in
  intros method url Hin;
  repeat (apply elem_of_cons in Hin as [Hin|Hin];
          [first [ discriminate Hin
                 | injection Hin as -> _; by (left + right) ]|]);
  by apply elem_of_nil in Hin.

(** The outline of a migration: what its steps, the results of its
    relocations and its last words have to do with each other. *)
Lemma migration_outline w vhost name target_type :
  forall st fb mv completed failed,
    steps (trace handle (migrate_queue vhost name target_type) w) = st ->
    fetched_bindings (trace handle (migrate_queue vhost name target_type) w)
    = fb ->
    moves (trace handle (migrate_queue vhost name target_type) w) = mv ->
    omap (said (to_stdout,
                "Migration complete! Queue '" +:+ name +:+ "' is now '"
                  +:+ target_type +:+ "'."))
         (trace handle (migrate_queue vhost name target_type) w)
    = completed ->
    omap (said (to_log_error,
                "Error during message transfer. Migration aborted."))
         (trace handle (migrate_queue vhost name target_type) w)
    = failed ->
    (exists policy_lookup,
        st `prefix_of` spec.migration_steps vhost name policy_lookup
                         (default [] fb)
        /\ (fb = None ->
            st `prefix_of`
              ([request "GET" (queue_url vhost name)]
               ++ (if policy_lookup
                   then [request "GET" (policies_url vhost)] else [])
               ++ [request "GET" (bindings_url vhost name)])))
    /\ (completed <> [] ->
        exists policy_lookup bindings n,
          fb = Some bindings
          /\ st = spec.migration_steps vhost name policy_lookup bindings
          /\ mv = [ (name, name +:+ "_temp_migrated", n);
                    (name +:+ "_temp_migrated", name, n) ]
          /\ n <> -1)
    /\ ((name, name +:+ "_temp_migrated", -1) ∈ mv ->
        failed <> []
        /\ last st = Some (relocation name (name +:+ "_temp_migrated"))
        /\ forall method url,
            request method url ∈ st -> method = "GET" \/ method = "PUT").
Proof.
  unfold migrate_queue, migrate_queue_try.
  unfold mbind, prog_bind, steps, fetched_bindings, moves.
  rewrite trace_bind. rewrite ?omap_app.
  quiet_chunk (logger.log_info ("===== Starting migration of '" +:+ name
                 +:+ "' to '" +:+ target_type +:+ "' =====")) w.
  quiet_said (logger.log_info ("===== Starting migration of '" +:+ name
                +:+ "' to '" +:+ target_type +:+ "' =====")) w.
  destruct (run handle (logger.log_info _) w) as [[[]|e] w0] eqn:Hstart.
  2:{ cbn [app omap list_omap head]. intros st fb mv completed failed
        <- <- <- <- <-.
      split; [|split].
      - exists false. split; [|intros _]; apply prefix_nil.
      - done.
      - intros Hin. by apply elem_of_nil in Hin. }
  repeat walk_steps.
  all: cbn [app omap list_omap head];
    intros st fb mv completed failed <- <- <- <- <-.
  all: split;
    [ first [ match goal with
              | s : settings |- _ => exists (opt_str_truthy (s_policy s))
              end
            | exists false ];
      unfold spec.migration_steps;
      try match goal with
          | |- context [if ?b then _ else _] => destruct b
          end;
      cbn [app default];
      (split; [solve_prefix
              | let Hfb := fresh "Hfb" in
                intros Hfb; first [discriminate Hfb | solve_prefix]])
    | split;
      [ let Hc := fresh "Hc" in
        intros Hc; first [ by destruct Hc | clear Hc; solve_complete ]
      | let Hfwd := fresh "Hfwd" in
        intros Hfwd; solve_forward_failure Hfwd ] ].
Qed.

(** ** The requests of a migration *)

(** What [get_queue_settings] returns, from the document it read. *)
Lemma fetched_get_queue_settings vhost name w r w1 :
  run handle (get_queue_settings vhost name) w = (r, w1) ->
  match r with
  | Returned (Some settings) =>
      exists doc,
        omap queue_of (trace handle (get_queue_settings vhost name) w)
        = [doc]
        /\ s_durable settings = default true (doc_durable doc)
        /\ s_arguments settings = default ∅ (doc_arguments doc)
  | _ =>
      omap queue_of (trace handle (get_queue_settings vhost name) w) = []
  end.
Proof.
  unfold_helpers. cbn.
  destruct (handle _ _ w) as [[v|e] w2]; cbn; [|by intros [= <- _]].
  destruct (accepted v [200]) as [resp|]; cbn.
  - intros [= <- _]. by exists (json resp).
  - by destruct (handle _ _ w2) as [[[]|e] w3]; cbn; intros [= <- _].
Qed.

Ltac walk_requests_on p w :=
  rewrite ?omap_app; quiet_chunk p w;
  rewrite ?delete_urls_delete_queue;
  let a := fresh "a" in
  let e := fresh "e" in
  let w1 := fresh "w" in
  let Hrun := fresh "Hrun" in
  destruct (run handle p w) as [[a|e] w1] eqn:Hrun;
  try rewrite (moves_move_messages _ _ _ _ _ _ _ _ Hrun);
  [ idtac
  | destruct e; cbn [migrate_queue_except];
    match goal with
    | |- context [trace handle ?q w1] =>
        rewrite ?omap_app; quiet_chunk q w1
    | |- _ => idtac
    end ].

Ltac walk_requests :=
  lazymatch goal with
  | |- context [trace handle (try_except ?p ?h) ?w] =>
      lazymatch p with
      | bind ?q ?f =>
          let k := fresh "k" in
          set (k := f);
          rewrite (trace_try_except_bind handle q k h w);
          walk_requests_on q w;
          subst k; cbv beta
      | match _ with _ => _ end => destruct_test p
      | _ => rewrite (trace_try_except handle p h w); walk_requests_on p w
      end
  end.

(** Makes the PUTs and the queue document of a leaf explicit. *)
Ltac explicit_requests :=
  try match goal with
      | Hr : run handle (get_queue_settings _ _) _ = _ |- _ =>
          let Hdoc := fresh "Hdoc" in
          pose proof (fetched_get_queue_settings _ _ _ _ _ Hr) as Hdoc;
          cbv beta iota in Hdoc;
          first [ destruct Hdoc as (doc & Hdoc & Hdurable & Harguments)
                | idtac ];
          rewrite Hdoc
      end;
  repeat match goal with
         | |- context [omap (request_of "PUT" _)
                            (trace handle (create_queue ?v ?n ?d ?a) ?w)] =>
             let ok := fresh "ok" in
             let Hput := fresh "Hput" in
             let Ht := fresh "Ht" in
             let Hf := fresh "Hf" in
             destruct (puts_create_queue v n d a w)
               as (ok & Hput & Ht & Hf);
             rewrite Hput; clear Hput;
             try match goal with
                 | Hr : run handle (create_queue v n d a) w
                        = (Returned true, _) |- _ =>
                     pose proof (Ht _ Hr); subst ok
                 end
         end;
  cbn [app head fmap list_fmap fst snd].

(** The requests of a migration: what is created, with which settings,
    and what must have happened before a queue is deleted. *)
Lemma migration_requests w vhost name target_type :
  forall dl mv puts fq,
    request_urls "DELETE"
      (trace handle (migrate_queue vhost name target_type) w) = dl ->
    moves (trace handle (migrate_queue vhost name target_type) w) = mv ->
    requests "PUT" [201; 204]
      (trace handle (migrate_queue vhost name target_type) w) = puts ->
    fetched_queue (trace handle (migrate_queue vhost name target_type) w)
    = fq ->
    (forall doc,
        fq = Some doc ->
        Forall (fun x =>
                  x.1.2
                  = Some (queue_payload
                            (default true (doc_durable doc))
                            (<["x-queue-type" := VStr target_type]>
                               (utils.remove_unsupported_keys_value
                                  (default ∅ (doc_arguments doc))
                                  target_type).1)))
               puts)
    /\ puts.*1.*1 `prefix_of` [ queue_url vhost (name +:+ "_temp_migrated");
                                queue_url vhost name ]
    /\ (queue_url vhost name +:+ "?if-empty=true" ∈ dl ->
        exists n body,
          head mv = Some (name, name +:+ "_temp_migrated", n)
          /\ n <> -1
          /\ head puts
             = Some (queue_url vhost (name +:+ "_temp_migrated"), body,
                     true))
    /\ (queue_url vhost (name +:+ "_temp_migrated") ∈ dl ->
        exists n body,
          mv = [ (name, name +:+ "_temp_migrated", n);
                 (name +:+ "_temp_migrated", name, n) ]
          /\ n <> -1
          /\ puts = [ (queue_url vhost (name +:+ "_temp_migrated"), body,
                       true);
                      (queue_url vhost name, body, true) ]
          /\ dl = [ queue_url vhost name +:+ "?if-empty=true";
                    queue_url vhost (name +:+ "_temp_migrated") ]).
Proof.
  unfold migrate_queue, migrate_queue_try.
  unfold mbind, prog_bind, request_urls, moves, requests, fetched_queue.
  rewrite trace_bind. rewrite ?omap_app.
  quiet_chunk (logger.log_info ("===== Starting migration of '" +:+ name
                 +:+ "' to '" +:+ target_type +:+ "' =====")) w.
  destruct (run handle (logger.log_info _) w) as [[[]|e] w0] eqn:Hstart.
  2:{ cbn [app omap list_omap head]. intros dl mv puts fq <- <- <- <-.
      split; [intros doc [=]|]. split; [apply prefix_nil|].
      split; intros Hin; by apply elem_of_nil in Hin. }
  repeat walk_requests.
  all: cbn [app omap list_omap head]; intros dl mv puts fq <- <- <- <-.
  all: explicit_requests.
  all: split;
    [ let Heq := fresh "Heq" in
      intros doc0 Heq;
      first [ discriminate Heq
            | injection Heq as <-;
              repeat constructor; cbn [fst snd];
              try (rewrite <- Hdurable, <- Harguments;
                   match goal with
                   | Hp : utils.remove_unsupported_keys_value _ _ = _ |- _ =>
                       rewrite Hp
                   end);
              reflexivity ]
    | split;
      [ repeat first [apply prefix_nil | apply prefix_cons]
      | split;
        [ let Hin := fresh "Hin" in
          intros Hin;
          first [ by apply elem_of_nil in Hin
                | clear Hin;
                  match goal with
                  | Hm : (?x =? -1) = false |- _ =>
                      apply Z.eqb_neq in Hm; eexists _, _;
                      split; [reflexivity|split; [exact Hm|reflexivity]]
                  end ]
        | let Hin := fresh "Hin" in
          intros Hin;
          first [ solve [read_url_in Hin]
                | clear Hin;
                  match goal with
                  | Hsame : (_ =? ?x) = true, Hm : (?x =? -1) = false
                    |- _ =>
                      apply Z.eqb_eq in Hsame as ->;
                      apply Z.eqb_neq in Hm; eexists _, _;
                      split; [reflexivity|];
                      split; [exact Hm|];
                      split; reflexivity
                  end ] ] ] ].
Qed.

(** ** More on the orchestrator *)

(** X15: when the forward move returned -1, the procedure halts: it logs
    the transfer error, and the forward move is the last thing it does
    to the broker. Up to then it has only read (GET) and created the
    temporary queue (PUT): the original queue is not deleted. *)
Theorem forward_failure_keeps_original_queue w vhost name target_type :
  (name, name +:+ "_temp_migrated", -1)
    ∈ moves (trace handle (migrate_queue vhost name target_type) w) ->
  (to_log_error, "Error during message transfer. Migration aborted.")
    ∈ lines (trace handle (migrate_queue vhost name target_type) w)
  /\ last (steps (trace handle (migrate_queue vhost name target_type) w))
     = Some (relocation name (name +:+ "_temp_migrated"))
  /\ forall method url,
      request method url
        ∈ steps (trace handle (migrate_queue vhost name target_type) w) ->
      method = "GET" \/ method = "PUT".
Proof.
  intros Hfwd.
  destruct (migration_outline w vhost name target_type _ _ _ _ _
              eq_refl eq_refl eq_refl eq_refl eq_refl)
    as (_ & _ & Hfailed).
  destruct (Hfailed Hfwd) as (Hsaid & Hlast & Hsteps).
  split; [by apply said_lines|done].
Qed.


(** X17: as long as the bindings of the queue were not read with status
    200, [migrate_queue] changes nothing on the broker: all it sends are
    GET requests. *)
Theorem no_change_without_bindings w vhost name target_type :
  fetched_bindings (trace handle (migrate_queue vhost name target_type) w)
  = None ->
  forall s,
    s ∈ steps (trace handle (migrate_queue vhost name target_type) w) ->
    exists url, s = request "GET" url.
Proof.
  intros Hnone s Hs.
  destruct (migration_outline w vhost name target_type _ _ _ _ _
              eq_refl eq_refl eq_refl eq_refl eq_refl)
    as ((policy_lookup & _ & Hreads) & _ & _).
  destruct (Hreads Hnone) as [rest Heq].
  assert (Hin : s ∈ [request "GET" (queue_url vhost name)]
                    ++ (if policy_lookup
                        then [request "GET" (policies_url vhost)] else [])
                    ++ [request "GET" (bindings_url vhost name)]).
  { rewrite Heq. apply elem_of_app. by left. }
  destruct policy_lookup; cbn [app] in Hin;
    repeat (apply elem_of_cons in Hin as [->|Hin]; [by eexists|]);
    by apply elem_of_nil in Hin.
Qed.


(** X19: the original queue is deleted only after the temporary queue
    was created and the messages were moved to it: when the DELETE of
    the original queue is sent, the first PUT of the run was for the
    temporary queue and passed, and the first relocation was the
    forward move and returned a count, not -1. *)
Theorem original_deleted_after_forward_move w vhost name target_type :
  queue_url vhost name +:+ "?if-empty=true"
    ∈ request_urls "DELETE"
        (trace handle (migrate_queue vhost name target_type) w) ->
  exists n body,
    head (moves (trace handle (migrate_queue vhost name target_type) w))
    = Some (name, name +:+ "_temp_migrated", n)
    /\ n <> -1
    /\ head (requests "PUT" [201; 204]
               (trace handle (migrate_queue vhost name target_type) w))
       = Some (queue_url vhost (name +:+ "_temp_migrated"), body, true).
Proof.
  intros Hdelete.
  destruct (migration_requests w vhost name target_type _ _ _ _
              eq_refl eq_refl eq_refl eq_refl)
    as (_ & _ & Horiginal & _).
  by apply Horiginal.
Qed.

(** X20: the queues that [migrate_queue] creates are the temporary queue
    and then the original one, and both are created with the settings of
    the queue document that was read: its durable flag (true when the
    document has none) and its arguments without the keys that the
    target type does not support, plus "x-queue-type". *)
Theorem queues_created_with_filtered_arguments w vhost name target_type
    doc :
  fetched_queue (trace handle (migrate_queue vhost name target_type) w)
  = Some doc ->
  Forall (fun x =>
            x.1.2
            = Some (queue_payload
                      (default true (doc_durable doc))
                      (<["x-queue-type" := VStr target_type]>
                         (utils.remove_unsupported_keys_value
                            (default ∅ (doc_arguments doc))
                            target_type).1)))
         (requests "PUT" [201; 204]
            (trace handle (migrate_queue vhost name target_type) w))
  /\ (requests "PUT" [201; 204]
        (trace handle (migrate_queue vhost name target_type) w)).*1.*1
       `prefix_of` [ queue_url vhost (name +:+ "_temp_migrated");
                     queue_url vhost name ].
Proof.
  intros Hdoc.
  destruct (migration_requests w vhost name target_type _ _ _ _
              eq_refl eq_refl eq_refl eq_refl)
    as (Hpayload & Hurls & _ & _).
  split; [by apply Hpayload|done].
Qed.

(** X21: the temporary queue is deleted only when the messages are back:
    when its DELETE is sent, the two relocations returned the same
    number of messages, not -1, both queues were created with the same
    settings and both creations passed, and the only other DELETE was
    that of the original queue, before. *)
Theorem temporary_deleted_after_equal_counts w vhost name target_type :
  queue_url vhost (name +:+ "_temp_migrated")
    ∈ request_urls "DELETE"
        (trace handle (migrate_queue vhost name target_type) w) ->
  exists n body,
    moves (trace handle (migrate_queue vhost name target_type) w)
    = [ (name, name +:+ "_temp_migrated", n);
        (name +:+ "_temp_migrated", name, n) ]
    /\ n <> -1
    /\ requests "PUT" [201; 204]
         (trace handle (migrate_queue vhost name target_type) w)
       = [ (queue_url vhost (name +:+ "_temp_migrated"), body, true);
           (queue_url vhost name, body, true) ]
    /\ request_urls "DELETE"
         (trace handle (migrate_queue vhost name target_type) w)
       = [ queue_url vhost name +:+ "?if-empty=true";
           queue_url vhost (name +:+ "_temp_migrated") ].
Proof.
  intros Hdelete.
  destruct (migration_requests w vhost name target_type _ _ _ _
              eq_refl eq_refl eq_refl eq_refl)
    as (_ & _ & _ & Htemporary).
  by apply Htemporary.
Qed.

(** ** Interrupts *)
Lemma run_try_except {A} (p : prog A) h w :
  run handle (try_except p h) w
  = match run handle p w with
    | (Returned a, w1) => (Returned a, w1)
    | (Raised e, w1) =>
        match h e with Some q => run handle q w1 | None => (Raised e, w1) end
    end.
Proof.
  revert w. induction p as [a|e|R o k IH]; intros w; simpl; try done.
  - by destruct (h e).
  - destruct (handle R o w) as [r w1]. apply IH.
Qed.

(** In a program that only propagates what its calls raise, a call that
    raises is the last one. *)
Lemma propagates_trace {A} (p : prog A) w :
  propagates p ->
  match run handle p w with
  | (Returned _, _) => raises (trace handle p w) = []
  | (Raised e, _) =>
      exists tr' R (o : op R),
        trace handle p w = tr' ++ [Ev o (Raised e)] /\ raises tr' = []
  end.
Proof.
  revert w. induction p as [a|e|R o k IH]; intros w Hp; simpl in *;
    [done..|].
  destruct Hp as [Hv He].
  destruct (handle R o w) as [[v|e] w1] eqn:Hreply; simpl.
  - specialize (IH (Returned v) w1 (Hv v)).
    destruct (run handle (k (Returned v)) w1) as [[a|e] w2].
    + done.
    + destruct IH as (tr' & R' & o' & -> & Hnone).
      by exists (Ev o (Returned v) :: tr'), R', o'.
  - rewrite He. simpl. by exists [], R, o.
Qed.

Ltac propagates_tac :=
  repeat (cbn; unfold mbind, prog_bind, mret, prog_ret; cbn;
          match goal with
          | |- _ /\ _ => split
          | |- forall _, _ => intros ?
          | |- propagates (bind (recreate_bindings _ _ _) _) =>
              apply propagates_bind; [apply recreate_bindings_propagates|]
          | |- propagates ?p => destruct_head p
          | |- True => exact I
          | |- _ = _ => reflexivity
          end).

Lemma migrate_queue_try_propagates vhost name target_type :
  propagates (migrate_queue_try vhost name target_type).
Proof.
  unfold migrate_queue_try. unfold_helpers. propagates_tac.
Qed.

(** The first call that raises is where it is. *)
Lemma first_raise_unique (l1 l2 r1 r2 : list event) x y :
  l1 ++ x :: r1 = l2 ++ y :: r2 ->
  raises l1 = [] -> raises l2 = [] ->
  is_Some (raise_of x) -> is_Some (raise_of y) ->
  l1 = l2 /\ x = y /\ r1 = r2.
Proof.
  unfold raises. revert l2.
  induction l1 as [|a l1 IH]; intros [|b l2] Heq H1 H2 Hx Hy; simpl in *.
  - by injection Heq as -> ->.
  - injection Heq as -> _. destruct (raise_of b); by destruct Hx.
  - injection Heq as -> _. destruct (raise_of y); by destruct Hy.
  - injection Heq as -> Heq.
    destruct (raise_of b); [done|].
    destruct (IH l2 Heq H1 H2 Hx Hy) as (-> & -> & ->). done.
Qed.

(** X22: a [KeyboardInterrupt] raised by any call after the first log
    line is caught: the next thing [migrate_queue] does is to log that
    the migration was interrupted, it makes no further request and
    starts no relocation, and it returns normally unless its last two
    calls raise as well. Any other exception ends the run at once and
    leaves [migrate_queue]. *)
Theorem keyboard_interrupt_is_caught w vhost name target_type pre R
    (o : op R) e post :
  trace handle (migrate_queue vhost name target_type) w
  = pre ++ Ev o (Raised e) :: post ->
  pre <> [] ->
  raises pre = [] ->
  match e with
  | KeyboardInterrupt =>
      steps post = []
      /\ head (lines post)
         = Some (to_log_error, "Migration interrupted by user (Ctrl+C).")
      /\ (raises post = [] ->
          exists w1,
            run handle (migrate_queue vhost name target_type) w
            = (Returned tt, w1))
  | Exception what =>
      post = []
      /\ exists w1,
          run handle (migrate_queue vhost name target_type) w
          = (Raised (Exception what), w1)
  end.
Proof.
  unfold migrate_queue, mbind, prog_bind.
  rewrite trace_bind, run_bind.
  unfold logger.log_info. cbn [call trace run].
  destruct (handle _ _ w) as [[[]|e0] w0] eqn:Hstart; cbn [trace run].
  2:{ intros Heq Hpre Hnone. destruct pre as [|ev pre]; [done|].
      injection Heq as <- Heq. by destruct pre. }
  rewrite trace_try_except, run_try_except.
  pose proof (propagates_trace
                (migrate_queue_try vhost name target_type) w0
                (migrate_queue_try_propagates vhost name target_type))
    as Hbody.
  destruct (run handle (migrate_queue_try vhost name target_type) w0)
    as [[[]|e1] w1].
  - (* the body returned: nothing raised *)
    intros Heq Hpre Hnone. exfalso.
    rewrite app_nil_r in Heq.
    apply (f_equal raises) in Heq. unfold raises in *.
    rewrite !omap_app in Heq. rewrite Hbody, Hnone in Heq.
    by cbn [app omap list_omap raise_of] in Heq.
  - destruct Hbody as (tr' & R' & o' & Hbody & Hquiet).
    rewrite Hbody. intros Heq Hpre Hnone.
    assert (Hsplit :
              (Ev (LogInfo ("===== Starting migration of '" +:+ name
                            +:+ "' to '" +:+ target_type +:+ "' ====="))
                  (Returned tt) :: tr')
              ++ Ev o' (Raised e1)
                 :: match migrate_queue_except e1 with
                    | Some q => trace handle q w1
                    | None => []
                    end
              = pre ++ Ev o (Raised e) :: post).
    { rewrite <- Heq. simpl. by rewrite <- app_assoc. }
    apply first_raise_unique in Hsplit as (_ & Hev & Hpost);
      [|by unfold raises in *; simpl|done|by eexists|by eexists].
    apply (f_equal raise_of) in Hev. injection Hev as ->.
    destruct e as [|what]; cbn [migrate_queue_except] in *.
    + subst post. unfold logger.log_error, print, steps, lines, raises.
      cbn.
      destruct (handle _ _ w1) as [[[]|e2] w2]; cbn.
      * destruct (handle _ _ w2) as [[[]|e3] w3]; cbn.
        -- split; [done|]. split; [done|]. intros _. by eexists.
        -- split; [done|]. split; [done|]. done.
      * split; [done|]. split; [done|]. done.
    + subst post. split; [done|]. by eexists.
Qed.

End orchestrator_facts.

(** * The policy lookup *)
Section policy_lookup_facts.
Context `{Config} `{Regex}.
Context {World : Type} (handle : forall R, op R -> World -> reply R * World).

End policy_lookup_facts.

(** * The claims at concrete inputs *)
Module examples.
Import scenario observe.



(** C2 as stated fails on the binding to the default exchange: it is in
    the fetched list, the migration runs to its end, and the only POST is
    the one for the other binding. *)
Lemma C2_counterexample :
  fetched_bindings
    (trace (answer with_default_binding)
           (queue_migrator.migrate_queue "%2f" "orders" "quorum") [3; 3])
  = Some [default_binding; orders_binding]
  /\ request_urls "POST"
       (trace (answer with_default_binding)
              (queue_migrator.migrate_queue "%2f" "orders" "quorum") [3; 3])
     = [queue_utils.binding_url "%2f" "orders.ex" "orders"]
  /\ last (lines
             (trace (answer with_default_binding)
                    (queue_migrator.migrate_queue "%2f" "orders" "quorum")
                    [3; 3]))
     = Some (to_log_info,
             "Migration successful for queue 'orders' to 'quorum'.").
Proof. repeat split; vm_compute; reflexivity. Qed.

Lemma C2_witness :
  fetched_bindings
    (trace (answer healthy)
           (queue_migrator.migrate_queue "%2f" "orders" "quorum") [5; 5])
  = Some two_bindings
  /\ (queue_utils.queue_url "%2f" "orders",
      Some (queue_payload true {[ "x-queue-type" := VStr "quorum" ]}), true)
       ∈ requests "PUT" [201; 204]
           (trace (answer healthy)
                  (queue_migrator.migrate_queue "%2f" "orders" "quorum")
                  [5; 5])
  /\ raises
       (trace (answer healthy)
              (queue_migrator.migrate_queue "%2f" "orders" "quorum") [5; 5])
     = []
  /\ ("orders" +:+ "_temp_migrated", "orders")
       ∈ relocations
           (trace (answer healthy)
                  (queue_migrator.migrate_queue "%2f" "orders" "quorum")
                  [5; 5])
  /\ spec.binding_requests "%2f" "orders" two_bindings
     = [ (queue_utils.binding_url "%2f" "orders.ex" "orders",
          Some (binding_payload "new" ∅));
         (queue_utils.binding_url "%2f" "audit.ex" "orders",
          Some (binding_payload "" ∅)) ]
  /\ spec.rebind_outcome
       (spec.binding_requests "%2f" "orders" two_bindings)
       (requests "POST" [201; 204]
          (trace (answer healthy)
                 (queue_migrator.migrate_queue "%2f" "orders" "quorum")
                 [5; 5]))
  /\ requests "POST" [201; 204]
       (trace (answer healthy)
              (queue_migrator.migrate_queue "%2f" "orders" "quorum") [5; 5])
     = (fun x => (x, true))
         <$> spec.binding_requests "%2f" "orders" two_bindings
  /\ (queue_utils.binding_url "%2f" "audit.ex" "orders",
      Some (binding_payload "" ∅), true)
       ∈ requests "POST" [201; 204]
           (trace (answer healthy)
                  (queue_migrator.migrate_queue "%2f" "orders" "quorum")
                  [5; 5]).
Proof.
  assert (Hfetch :
            fetched_bindings
              (trace (answer healthy)
                     (queue_migrator.migrate_queue "%2f" "orders" "quorum")
                     [5; 5])
            = Some two_bindings) by (vm_compute; reflexivity).
  assert (Hput :
            (queue_utils.queue_url "%2f" "orders",
             Some (queue_payload true {[ "x-queue-type" := VStr "quorum" ]}),
             true)
              ∈ requests "PUT" [201; 204]
                  (trace (answer healthy)
                         (queue_migrator.migrate_queue "%2f" "orders"
                                                       "quorum") [5; 5]))
    by (vm_compute; apply list_elem_of_further, list_elem_of_here).
  assert (Hno :
            raises
              (trace (answer healthy)
                     (queue_migrator.migrate_queue "%2f" "orders" "quorum")
                     [5; 5])
            = []) by (vm_compute; reflexivity).
  assert (Hmove :
            ("orders" +:+ "_temp_migrated", "orders")
              ∈ relocations
                  (trace (answer healthy)
                         (queue_migrator.migrate_queue "%2f" "orders"
                                                       "quorum") [5; 5]))
    by (vm_compute; apply list_elem_of_further, list_elem_of_here).
  destruct (C2_bindings_with_source_recreated_in_order (answer healthy)
              [5; 5] "%2f" "orders" "quorum" two_bindings Hfetch)
    as (_ & _ & Hforward & _ & Hall & Heach).
  split; [exact Hfetch|]. split; [exact Hput|]. split; [exact Hno|].
  split; [exact Hmove|]. split; [reflexivity|].
  split; [exact (Hforward _ Hput Hno)|].
  split; [exact (Hall (or_introl Hmove))|].
  refine (Heach {| b_source := Some "audit.ex"; b_routing_key := None;
                   b_arguments := None |} _ eq_refl Hmove).
  apply list_elem_of_further, list_elem_of_here.
Defined.

Lemma C1_witness :
  ("orders", "orders" +:+ "_temp_migrated", 5) ∈ moves (migration 5 4)
  /\ ("orders" +:+ "_temp_migrated", "orders", 4) ∈ moves (migration 5 4)
  /\ 0 <= 5 /\ 0 <= 4 /\ 4 <> 5
  /\ ((to_log_error,
       "Mismatch: moved " +:+ pretty 5 +:+ " to temp, but " +:+ pretty 4
         +:+ " moved back to '" +:+ "orders" +:+ "'. Investigate manually.")
        ∈ lines (migration 5 4)
      /\ (queue_utils.queue_url "%2f" ("orders" +:+ "_temp_migrated")
           ∉ request_urls "DELETE" (migration 5 4))
      /\ last (steps (migration 5 4))
         = Some (relocation ("orders" +:+ "_temp_migrated") "orders")).
Proof.
  split; [vm_compute; apply list_elem_of_here|].
  split; [vm_compute; apply list_elem_of_further, list_elem_of_here|].
  split; [lia|]. split; [lia|]. split; [lia|].
  apply (C1_count_mismatch_keeps_temp_queue (answer healthy) [5; 4] "%2f"
           "orders" "quorum" 5 4).
  - vm_compute. apply list_elem_of_here.
  - vm_compute. apply list_elem_of_further, list_elem_of_here.
  - lia.
  - lia.
  - lia.
Defined.

Lemma C10_witness :
  ("orders", "orders" +:+ "_temp_migrated", 5) ∈ moves (migration 5 (-1))
  /\ ("orders" +:+ "_temp_migrated", "orders", -1)
       ∈ moves (migration 5 (-1))
  /\ 0 <= 5
  /\ ((to_log_error,
       "Mismatch: moved " +:+ pretty 5
         +:+ " to temp, but -1 moved back to '" +:+ "orders"
         +:+ "'. Investigate manually.")
        ∈ lines (migration 5 (-1))
      /\ ((to_log_error, "Error during message transfer. Migration aborted.")
           ∉ lines (migration 5 (-1)))
      /\ (queue_utils.queue_url "%2f" ("orders" +:+ "_temp_migrated")
           ∉ request_urls "DELETE" (migration 5 (-1)))
      /\ last (steps (migration 5 (-1)))
         = Some (relocation ("orders" +:+ "_temp_migrated") "orders")).
Proof.
  split; [vm_compute; apply list_elem_of_here|].
  split; [vm_compute; apply list_elem_of_further, list_elem_of_here|].
  split; [lia|].
  apply (C10_failed_return_move_is_a_mismatch (answer healthy) [5; -1]
           "%2f" "orders" "quorum" 5).
  - vm_compute. apply list_elem_of_here.
  - vm_compute. apply list_elem_of_further, list_elem_of_here.
  - lia.
Defined.

Lemma C5_witness :
  message_utils.connect_error no_faults message_utils.source_conn = None
  /\ message_utils.connect_error no_faults message_utils.target_conn = None
  /\ empty_queues !! "orders_temp_migrated" = Some []
  /\ empty_queues !! "orders" = Some []
  /\ ("orders", "orders" +:+ "_temp_migrated", 0) ∈ moves (migration 0 0)
  /\ ((exists tr,
          message_utils.move_messages no_faults "orders"
            "orders_temp_migrated" "quorum" None "%2f" 1000 1 empty_queues
          = Some (0, empty_queues, tr))
      /\ (to_log_info,
          "No messages found in '" +:+ "orders"
            +:+ "'. Continuing migration.")
           ∈ lines (migration 0 0)
      /\ (raises (migration 0 0) = [] ->
          (to_stdout,
           "No messages found in '" +:+ "orders"
             +:+ "'. Continuing migration.")
            ∈ lines (migration 0 0)
          /\ queue_utils.queue_url "%2f" "orders" +:+ "?if-empty=true"
               ∈ request_urls "DELETE" (migration 0 0))).
Proof.
  split; [reflexivity|]. split; [reflexivity|].
  split; [reflexivity|]. split; [reflexivity|].
  split; [vm_compute; apply list_elem_of_here|].
  apply (C5_empty_source_is_success (answer healthy) no_faults "orders"
           "orders_temp_migrated" "quorum" None "%2f" 1000%positive 0%nat
           empty_queues [] [0; 0] "%2f" "orders" "quorum").
  - reflexivity.
  - reflexivity.
  - reflexivity.
  - reflexivity.
  - vm_compute. apply list_elem_of_here.
Defined.

Lemma C3_witness :
  one_dictionary !! 1%positive = Some priority_arguments
  /\ exists args1 removed1 σ1 d1 args2 σ2,
      utils.remove_unsupported_keys 1%positive "quorum" one_dictionary
      = Some (args1, removed1, σ1)
      /\ σ1 !! args1 = Some d1
      /\ utils.remove_unsupported_keys args1 "quorum" σ1
         = Some (args2, [], σ2)
      /\ σ2 !! args2 = Some d1.
Proof.
  split; [reflexivity|].
  apply (C3_remove_unsupported_keys_idempotent 1%positive "quorum"
           one_dictionary priority_arguments).
  reflexivity.
Defined.

Lemma C9_witness :
  one_dictionary !! 1%positive = Some priority_arguments
  /\ exists args_copy removed σ',
      utils.remove_unsupported_keys 1%positive "quorum" one_dictionary
      = Some (args_copy, removed, σ')
      /\ one_dictionary !! args_copy = None
      /\ σ' !! 1%positive = Some priority_arguments
      /\ forall r, r ≠ args_copy -> σ' !! r = one_dictionary !! r.
Proof.
  split; [reflexivity|].
  apply (C9_remove_unsupported_keys_frame 1%positive "quorum"
           one_dictionary priority_arguments).
  reflexivity.
Defined.

Lemma C4_witness :
  migration_planner.qi_exclusive exclusive_queue = true
  /\ ((exists blockers warnings,
          migration_planner.detect_migration_blockers exclusive_queue
            "quorum"
          = Some (blockers, warnings))
      /\ forall target_type blockers warnings,
          migration_planner.detect_migration_blockers exclusive_queue
            target_type
          = Some (blockers, warnings) ->
          "Exclusive queues are not supported." ∈ blockers).
Proof.
  split; [reflexivity|].
  apply (C4_exclusive_queue_is_blocked exclusive_queue). reflexivity.
Defined.

Lemma C6_witness :
  message_utils.connect_error no_faults message_utils.source_conn = None
  /\ message_utils.connect_error no_faults message_utils.target_conn = None
  /\ no_temp_queue !! "orders_temp_migrated" = None
  /\ exists tr,
      message_utils.move_messages no_faults "orders" "orders_temp_migrated"
        "quorum" None "%2f" 1000 5 no_temp_queue
      = Some (-1, no_temp_queue, tr)
      /\ message_utils.queue_declare_passive "orders_temp_migrated"
           (Some (message_utils.missing_queue_error no_faults
                    "orders_temp_migrated")) ∈ tr
      /\ existsb message_utils.touches_source tr = false.
Proof.
  split; [reflexivity|]. split; [reflexivity|]. split; [reflexivity|].
  apply (C6_missing_destination_consumes_nothing no_faults "orders"
           "orders_temp_migrated" "quorum" None "%2f" 1000%positive 5%nat
           no_temp_queue);
    reflexivity.
Defined.

Lemma C7_witness :
  message_utils.connect_error second_publish_fails message_utils.source_conn
  = None
  /\ message_utils.connect_error second_publish_fails
       message_utils.target_conn = None
  /\ "orders" ≠ "orders_temp_migrated"
  /\ three_messages !! "orders"
     = Some ([text_message "first"]
             ++ text_message "second" :: [text_message "third"])
  /\ three_messages !! "orders_temp_migrated" = Some []
  /\ (forall i x,
         [text_message "first"] !! i = Some x ->
         message_utils.publish_error second_publish_fails i x = None)
  /\ message_utils.publish_error second_publish_fails
       (length [text_message "first"]) (text_message "second")
     = Some "message was nacked"
  /\ (length [text_message "first"] < 10)%nat
  /\ exists before after,
      message_utils.move_messages second_publish_fails "orders"
        "orders_temp_migrated" "quorum" None "%2f" 1000 10 three_messages
      = Some (-1,
              <["orders" := text_message "second" :: [text_message "third"]]>
                (<["orders_temp_migrated" := [] ++ [text_message "first"]]>
                   three_messages),
              before
              ++ [ message_utils.delivered
                     (S (length [text_message "first"]))
                     (text_message "second");
                   message_utils.basic_publish "" "orders_temp_migrated"
                     (text_message "second") (Some "message was nacked");
                   message_utils.basic_nack
                     (S (length [text_message "first"])) true ]
              ++ after)
      /\ message_utils.deliveries before = [text_message "first"]
      /\ existsb message_utils.touches_source after = false.
Proof.
  assert (Hok : forall i x,
             [text_message "first"] !! i = Some x ->
             message_utils.publish_error second_publish_fails i x = None).
  { intros [|[|i]] x; simpl; intros [=]. reflexivity. }
  split; [reflexivity|]. split; [reflexivity|]. split; [discriminate|].
  split; [reflexivity|]. split; [reflexivity|]. split; [exact Hok|].
  split; [reflexivity|]. split; [simpl; lia|].
  apply (C7_publish_failure_requeues_and_stops second_publish_fails "orders"
           "orders_temp_migrated" "quorum" None "%2f" 1000%positive 10%nat
           three_messages [text_message "first"] (text_message "second")
           [text_message "third"] [] "message was nacked").
  - reflexivity.
  - reflexivity.
  - discriminate.
  - reflexivity.
  - reflexivity.
  - exact Hok.
  - reflexivity.
  - simpl. lia.
Defined.
End examples.

(** * Properties of the helpers of queue_utils.py and utils.py *)
Section helper_facts.
Import observe queue_utils.
Context `{Config}.
Context {World : Type} (handle : forall R, op R -> World -> reply R * World).

Lemma int_in_elem_of x codes : int_in x codes = true <-> x ∈ codes.
Proof.
  induction codes as [|c codes IH]; simpl.
  - split; [done|]. by intros ?%elem_of_nil.
  - by rewrite orb_true_iff, IH, elem_of_cons, Z.eqb_eq.
Qed.

(** The status test [response and response.status_code in codes] passes
    only on a listed status that is not an error status. *)
Lemma accepted_Some {B} (v : option (response B)) codes r :
  accepted v codes = Some r <->
  v = Some r /\ status_code r ∈ codes
  /\ ~ (400 <= status_code r < 600).
Proof.
  unfold accepted, response_ok. destruct v as [r'|].
  2:{ split; [done|]. by intros [? _]. }
  rewrite <- int_in_elem_of.
  destruct (Z.leb_spec 400 (status_code r')),
    (Z.ltb_spec (status_code r') 600); simpl;
    (split; [try done | intros ([= <-] & Hin & Hok)]);
    try (exfalso; lia).
  all: try rewrite Hin; try done.
  all: destruct (int_in (status_code r') codes) eqn:Hc; intros [= <-];
    (split; [done|split; [done|lia]]).
Qed.

(** X10: [delete_queue] returns [True] exactly when the request was
    answered with status 200 or 204. Status 404 is in the list of the
    test, but a response with an error status is falsy, so that a queue
    that is already gone counts as a failure. *)
Theorem delete_queue_true_iff vhost name (if_empty : bool) w resp w1
    (b : bool) w2 :
  handle _ (SendApiRequest no_json "DELETE"
              (if if_empty then queue_url vhost name +:+ "?if-empty=true"
               else queue_url vhost name) auth None None) w
  = (Returned resp, w1) ->
  run handle (delete_queue vhost name if_empty) w = (Returned b, w2) ->
  (b = true <->
   exists r, resp = Some r /\ (status_code r = 200 \/ status_code r = 204))
  /\ (forall r, resp = Some r -> status_code r = 404 ->
                b = false
                /\ (to_log_error,
                    "Failed to delete queue '" +:+ name +:+ "' (status: "
                      +:+ "404" +:+ "): " +:+ text r)
                     ∈ lines (trace handle
                                (delete_queue vhost name if_empty) w)).
Proof.
  intros Hreply. unfold delete_queue, utils.send_api_request, lines.
  cbn in *. rewrite Hreply. cbn.
  destruct (accepted resp [200; 204; 404]) as [r|] eqn:Hacc; cbn.
  - apply accepted_Some in Hacc as (-> & Hin & Hok).
    destruct (handle _ _ w1) as [[[]|e] w3]; cbn; intros [= <- <-].
    split.
    + split; [intros _|done]. exists r. split; [done|].
      apply elem_of_cons in Hin as [?|Hin]; [by left|].
      apply elem_of_cons in Hin as [?|Hin]; [by right|].
      apply list_elem_of_singleton in Hin. lia.
    + intros r' [= <-] H404. lia.
  - destruct (handle _ _ w1) as [[[]|e] w3]; cbn; intros [= <- <-].
    split.
    + split; [done|]. intros (r & -> & Hst).
      assert (accepted (Some r) [200; 204; 404] = Some r) as Heq; [|congruence].
      apply accepted_Some. split; [done|].
      split; [|lia]. destruct Hst as [-> | ->];
        [apply list_elem_of_here|apply list_elem_of_further, list_elem_of_here].
    + intros r -> H404. split; [done|]. cbn [from_option]. rewrite H404.
      apply list_elem_of_here.
Qed.
(** X11: [get_queue_settings] returns settings only for a request answered
    with status 200, and then fills the keys that the document lacks:
    a queue is durable and has no arguments unless the document says
    otherwise. In every other case it logs that the settings could not be
    retrieved and returns [None]. *)
Theorem get_queue_settings_result vhost queue_name w resp w1 result w2 :
  handle _ (SendApiRequest queue_json "GET" (queue_url vhost queue_name)
              auth None None) w
  = (Returned resp, w1) ->
  run handle (get_queue_settings vhost queue_name) w
  = (Returned result, w2) ->
  match result with
  | Some settings =>
      exists r,
        resp = Some r /\ status_code r = 200
        /\ s_durable settings = default true (doc_durable (json r))
        /\ s_arguments settings = default ∅ (doc_arguments (json r))
        /\ s_policy settings = doc_policy (json r)
        /\ lines (trace handle (get_queue_settings vhost queue_name) w) = []
  | None =>
      (forall r, resp = Some r -> status_code r <> 200)
      /\ lines (trace handle (get_queue_settings vhost queue_name) w)
         = [(to_log_error,
             "Unable to retrieve settings for " +:+ vhost +:+ "/"
               +:+ queue_name +:+ ".")]
  end.
Proof.
  intros Hreply. unfold get_queue_settings, utils.send_api_request, lines.
  cbn in *. rewrite Hreply. cbn.
  destruct (accepted resp [200]) as [r|] eqn:Hacc; cbn.
  - apply accepted_Some in Hacc as (-> & Hin & Hok).
    apply list_elem_of_singleton in Hin.
    intros [= <- <-]. by exists r.
  - destruct (handle _ _ w1) as [[[]|e] w3]; cbn; intros [= <- <-].
    split; [|done]. intros r -> Hst.
    assert (accepted (Some r) [200] = Some r) as Heq; [|congruence].
    apply accepted_Some. split; [done|].
    split; [|lia]. rewrite Hst. apply list_elem_of_here.
Qed.

(** The loop of [get_policy_by_name] returns the first policy of the
    list that bears the name. *)
Lemma policy_named_Some policies policy_name p :
  utils.policy_named policies policy_name = Some p ->
  p_name p = Some policy_name
  /\ exists before after,
      policies = before ++ p :: after
      /\ Forall (fun q => p_name q <> Some policy_name) before.
Proof.
  induction policies as [|q policies IH]; simpl; [done|].
  case_bool_decide as Hq.
  - intros [= <-]. split; [done|]. by exists [], policies.
  - intros Hfound. destruct (IH Hfound) as (Hname & before & after & -> & Hall).
    split; [done|]. exists (q :: before), after. split; [done|].
    by constructor.
Qed.

(** X9: a policy returned by [get_policy_by_name] bears exactly the name
    asked for, which is not empty; it comes from a policies document
    served with status 200, and it is the first policy of that document
    with this name. *)
Theorem get_policy_by_name_sound vhost policy_name w p w1 :
  run handle (utils.get_policy_by_name vhost policy_name) w
  = (Returned (Some p), w1) ->
  exists name r before after,
    policy_name = Some name /\ name <> ""
    /\ p_name p = Some name
    /\ handle _ (SendApiRequest policies_json "GET" (policies_url vhost)
                   auth None None) w
       = (Returned (Some r), w1)
    /\ status_code r = 200
    /\ json r = before ++ p :: after
    /\ Forall (fun q => p_name q <> Some name) before.
Proof.
  unfold utils.get_policy_by_name, utils.send_api_request, policies_url, auth.
  destruct policy_name as [[|c name]|]; cbn; [done| |done].
  destruct (handle _ _ w) as [[resp|e] w2] eqn:Hreply; cbn; [|done].
  destruct (accepted resp [200]) as [r|] eqn:Hacc; cbn; [|done].
  intros [= Hfound <-].
  apply accepted_Some in Hacc as (-> & Hin & Hok).
  apply list_elem_of_singleton in Hin.
  apply policy_named_Some in Hfound as (Hname & before & after & Hjson & Hall).
  by exists (String c name), r, before, after.
Qed.

(** X8: [validate_migration] accepts exactly the arguments from which
    [remove_unsupported_keys] removes nothing: the conflicts it returns
    are the keys that [remove_unsupported_keys] would remove, it returns
    [True] exactly when there is none, and then it has logged and printed
    nothing. *)
Theorem validate_migration_agrees_with_removal
    (arguments : list (string * value)) queue_type w ok conflicts w1 :
  NoDup arguments.*1 ->
  run handle (queue_migrator.validate_migration arguments queue_type) w
  = (Returned (ok, conflicts), w1) ->
  conflicts
    ≡ₚ (utils.remove_unsupported_keys_value
          (list_to_map arguments : gmap string value) queue_type).2
  /\ (ok = true <-> conflicts = [])
  /\ (ok = true ->
      trace handle (queue_migrator.validate_migration arguments queue_type) w
      = [])
  /\ (ok = false ->
      (to_log_error,
       capitalize queue_type +:+ " queues do not support: "
         +:+ repr_list conflicts)
        ∈ lines (trace handle
                   (queue_migrator.validate_migration arguments queue_type)
                   w)).
Proof.
  intros Hnd. unfold queue_migrator.validate_migration.
  set (keys := default [] (utils.UNSUPPORTED_FEATURES !! queue_type)).
  set (found := filter (fun k => k ∈ keys) arguments.*1).
  assert (Hperm : found
            ≡ₚ (utils.remove_unsupported_keys_value
                  (list_to_map arguments : gmap string value) queue_type).2).
  { unfold utils.remove_unsupported_keys_value.
    rewrite remove_loop_value_removed by apply unsupported_features_NoDup.
    simpl. apply NoDup_Permutation.
    - by apply NoDup_filter.
    - apply NoDup_filter, unsupported_features_NoDup.
    - intros k. unfold found. rewrite !list_elem_of_filter. fold keys.
      rewrite <- not_eq_None_Some, <- not_elem_of_list_to_map.
      split; intros [? ?]; (split; [|]); try done; [tauto|].
      by destruct (decide (k ∈ arguments.*1)). }
  case_bool_decide as Hnil; cbn.
  - intros [= <- <- <-]. rewrite Hnil in Hperm. done.
  - unfold logger.log_error, print, lines. cbn.
    destruct (handle _ _ w) as [[[]|e] w2]; cbn; [|done].
    destruct (handle _ _ w2) as [[[]|e] w3]; cbn; intros [= <- <- <-].
    split; [done|]. split; [done|]. split; [done|].
    intros _. apply list_elem_of_here.
Qed.
End helper_facts.

(** * The further properties at concrete inputs *)
Module more_examples.
Import scenario observe.




Lemma X4_witness :
(message_utils.connect_error refused message_utils.source_conn
 = Some "Connection refused"
 \/ message_utils.connect_error refused message_utils.source_conn = None
    /\ message_utils.connect_error refused message_utils.target_conn
       = Some "Connection refused")
/\ exists tr,
    message_utils.move_messages refused "orders" "orders_temp_migrated"
      "quorum" None "%2f" 1000 0 three_messages
    = Some (-1, three_messages, tr)
    /\ message_utils.print
         ("Error during message transfer: " +:+ "Connection refused") ∈ tr
    /\ existsb message_utils.touches_source tr = false
    /\ omap message_utils.close_of tr = omap message_utils.open_of tr
    /\ (forall queue raised,
           message_utils.queue_declare_passive queue raised ∉ tr).
Proof.
split; [left; reflexivity|].
apply (move_messages_connection_failure refused "orders"
         "orders_temp_migrated" "quorum" None "%2f" 1000%positive 0%nat
         three_messages "Connection refused").
left. reflexivity.
Defined.

Lemma X5_witness :
message_utils.connect_error no_faults message_utils.source_conn = None
/\ message_utils.connect_error no_faults message_utils.target_conn = None
/\ no_source_queue !! "orders_temp_migrated" = Some []
/\ no_source_queue !! "orders" = None
/\ exists tr,
    message_utils.move_messages no_faults "orders" "orders_temp_migrated"
      "quorum" None "%2f" 1000 1 no_source_queue
    = Some (-1, no_source_queue, tr)
    /\ message_utils.print
         ("Error during message transfer: "
          +:+ message_utils.missing_queue_error no_faults "orders") ∈ tr
    /\ message_utils.deliveries tr = []
    /\ message_utils.acks tr = []
    /\ omap message_utils.close_of tr
       = [message_utils.source_conn; message_utils.target_conn].
Proof.
split; [reflexivity|]. split; [reflexivity|].
split; [reflexivity|]. split; [reflexivity|].
apply (move_messages_missing_source no_faults "orders"
         "orders_temp_migrated" "quorum" None "%2f" 1000%positive 0%nat
         no_source_queue []); reflexivity.
Defined.

Lemma X6_witness :
one_dictionary !! 1%positive = Some priority_arguments
/\ exists args_copy removed σ' d',
    utils.remove_unsupported_keys 1%positive "quorum" one_dictionary
    = Some (args_copy, removed, σ')
    /\ σ' !! args_copy = Some d'
    /\ (forall key,
          d' !! key
          = if bool_decide
                 (key ∈ default [] (utils.UNSUPPORTED_FEATURES !! "quorum"))
            then None else priority_arguments !! key)
    /\ removed
       = filter (fun key => is_Some (priority_arguments !! key))
                (default [] (utils.UNSUPPORTED_FEATURES !! "quorum")).
Proof.
split; [reflexivity|].
apply (remove_unsupported_keys_result 1%positive "quorum" one_dictionary
         priority_arguments).
reflexivity.
Defined.

Lemma X7_witness :
one_dictionary !! 1%positive = Some priority_arguments
/\ "stream" ≠ "quorum"
/\ exists args_copy σ',
    utils.remove_unsupported_keys 1%positive "stream" one_dictionary
    = Some (args_copy, [], σ')
    /\ σ' !! args_copy = Some priority_arguments
    /\ one_dictionary !! args_copy = None.
Proof.
split; [reflexivity|]. split; [discriminate|].
apply (remove_unsupported_keys_unknown_type 1%positive "stream"
         one_dictionary priority_arguments).
- reflexivity.
- discriminate.
Defined.
Lemma X8_witness :
NoDup priority_items.*1
/\ run (answer healthy)
       (queue_migrator.validate_migration priority_items "quorum") []
   = (Returned (false, ["x-max-priority"]), [])
/\ (["x-max-priority"]
      ≡ₚ (utils.remove_unsupported_keys_value
            (list_to_map priority_items : gmap string value) "quorum").2
    /\ (false = true <-> ["x-max-priority"] = [])
    /\ (false = true ->
        trace (answer healthy)
              (queue_migrator.validate_migration priority_items "quorum") []
        = [])
    /\ (false = false ->
        (to_log_error,
         capitalize "quorum" +:+ " queues do not support: "
           +:+ repr_list ["x-max-priority"])
          ∈ lines (trace (answer healthy)
                     (queue_migrator.validate_migration priority_items
                                                        "quorum") []))).
Proof.
assert (Hnd : NoDup priority_items.*1).
{ apply (bool_decide_unpack _). vm_compute. exact I. }
split; [exact Hnd|]. split; [reflexivity|].
apply (validate_migration_agrees_with_removal (answer healthy)
         priority_items "quorum" [] false ["x-max-priority"] []).
- exact Hnd.
- reflexivity.
Defined.

Lemma X9_witness :
run (answer with_policies)
    (utils.get_policy_by_name "%2f" (Some "orders-ttl")) []
= (Returned (Some orders_policy), [])
/\ exists name r before after,
    Some "orders-ttl" = Some name /\ name <> ""
    /\ p_name orders_policy = Some name
    /\ answer with_policies _
         (SendApiRequest policies_json "GET"
            (queue_utils.policies_url "%2f") queue_utils.auth None None) []
       = (Returned (Some r), [])
    /\ status_code r = 200
    /\ json r = before ++ orders_policy :: after
    /\ Forall (fun q => p_name q <> Some name) before.
Proof.
split; [reflexivity|].
apply (get_policy_by_name_sound (answer with_policies) "%2f"
         (Some "orders-ttl") [] orders_policy []).
reflexivity.
Defined.

Lemma X10_witness :
answer missing_queue _
  (SendApiRequest no_json "DELETE"
     (if true then queue_utils.queue_url "%2f" "orders" +:+ "?if-empty=true"
      else queue_utils.queue_url "%2f" "orders")
     queue_utils.auth None None) []
= (Returned (Some (ok_response 404 tt)), [])
/\ run (answer missing_queue) (queue_utils.delete_queue "%2f" "orders" true)
       []
   = (Returned false, [])
/\ ((false = true <->
     exists r,
       Some (ok_response 404 tt) = Some r
       /\ (status_code r = 200 \/ status_code r = 204))
    /\ (forall r,
          Some (ok_response 404 tt) = Some r -> status_code r = 404 ->
          false = false
          /\ (to_log_error,
              "Failed to delete queue '" +:+ "orders" +:+ "' (status: "
                +:+ "404" +:+ "): " +:+ text r)
               ∈ lines (trace (answer missing_queue)
                          (queue_utils.delete_queue "%2f" "orders" true)
                          []))).
Proof.
split; [reflexivity|]. split; [reflexivity|].
apply (delete_queue_true_iff (answer missing_queue) "%2f" "orders" true []
         (Some (ok_response 404 tt)) [] false []); reflexivity.
Defined.

Lemma X11_witness :
answer healthy _
  (SendApiRequest queue_json "GET" (queue_utils.queue_url "%2f" "orders")
     queue_utils.auth None None) []
= (Returned
     (Some (ok_response 200
              (classic_queue {[ "x-max-priority" := VNum 10 ]}))), [])
/\ run (answer healthy) (queue_utils.get_queue_settings "%2f" "orders") []
   = (Returned (Some healthy_settings), [])
/\ match Some healthy_settings with
   | Some settings =>
       exists r,
         Some (ok_response 200
                 (classic_queue {[ "x-max-priority" := VNum 10 ]}))
         = Some r
         /\ status_code r = 200
         /\ queue_utils.s_durable settings
            = default true (doc_durable (json r))
         /\ queue_utils.s_arguments settings
            = default ∅ (doc_arguments (json r))
         /\ queue_utils.s_policy settings = doc_policy (json r)
         /\ lines (trace (answer healthy)
                     (queue_utils.get_queue_settings "%2f" "orders") [])
            = []
   | None =>
       (forall r,
           Some (ok_response 200
                   (classic_queue {[ "x-max-priority" := VNum 10 ]}))
           = Some r ->
           status_code r <> 200)
       /\ lines (trace (answer healthy)
                   (queue_utils.get_queue_settings "%2f" "orders") [])
          = [(to_log_error,
              "Unable to retrieve settings for " +:+ "%2f" +:+ "/"
                +:+ "orders" +:+ ".")]
   end.
Proof.
split; [reflexivity|]. split; [reflexivity|].
apply (get_queue_settings_result (answer healthy) "%2f" "orders" []
         (Some (ok_response 200
                  (classic_queue {[ "x-max-priority" := VNum 10 ]})))
         [] (Some healthy_settings) []); reflexivity.
Defined.

Lemma X12_witness :
exists warnings,
  migration_planner.detect_migration_blockers exclusive_queue "quorum"
  = Some ([ "Non-durable queues cannot be migrated.";
            "Exclusive queues are not supported.";
            "Auto-delete queues cannot be migrated." ], warnings)
  /\ ([ "Non-durable queues cannot be migrated.";
        "Exclusive queues are not supported.";
        "Auto-delete queues cannot be migrated." ] = [] <->
      false = true /\ true = false /\ true = false)
  /\ (forall target_type,
        migration_planner.detect_migration_blockers exclusive_queue
                                                    target_type
        = None <->
        target_type <> "quorum").
Proof. apply (detect_migration_blockers_flags exclusive_queue). Defined.

Lemma X13_witness :
"x-max-priority"
  ∈ ["x-queue-version"; "x-queue-master-locator"; "x-max-priority"]
/\ is_Some (migration_planner.qi_arguments priority_queue
              !! "x-max-priority")
/\ exists blockers warnings,
    migration_planner.detect_migration_blockers priority_queue "quorum"
    = Some (blockers, warnings)
    /\ ("Setting '" +:+ "x-max-priority"
        +:+ "' will be removed during migration.") ∈ warnings
    /\ "x-max-priority"
         ∈ (utils.remove_unsupported_keys_value
              (migration_planner.qi_arguments priority_queue) "quorum").2
    /\ (utils.remove_unsupported_keys_value
          (migration_planner.qi_arguments priority_queue) "quorum").1
         !! "x-max-priority" = None.
Proof.
assert (Hin : "x-max-priority"
                ∈ ["x-queue-version"; "x-queue-master-locator";
                   "x-max-priority"]).
{ do 2 apply list_elem_of_further. apply list_elem_of_here. }
assert (Harg : is_Some (migration_planner.qi_arguments priority_queue
                          !! "x-max-priority")).
{ exists (VNum 10). reflexivity. }
split; [exact Hin|]. split; [exact Harg|].
apply (announced_removals_are_removed priority_queue "x-max-priority").
- exact Hin.
- exact Harg.
Defined.

Lemma X14_witness :
("x-queue-mode", "lazy")
  ∈ [("x-queue-mode", "lazy"); ("overflow", "reject-publish-dlx")]
/\ migration_planner.qi_arguments exclusive_queue !! "x-queue-mode"
   = Some (VStr "lazy")
/\ exists warnings,
    migration_planner.detect_migration_blockers exclusive_queue "quorum"
    = Some ([ "Non-durable queues cannot be migrated.";
              "Exclusive queues are not supported.";
              "Auto-delete queues cannot be migrated." ], warnings)
    /\ ("Argument '" +:+ "x-queue-mode" +:+ "=" +:+ "lazy"
        +:+ "' is not compatible with Quorum Queues.") ∈ warnings
    /\ (utils.remove_unsupported_keys_value
          (migration_planner.qi_arguments exclusive_queue) "quorum").1
         !! "x-queue-mode"
       = if bool_decide ("x-queue-mode" = "overflow")
         then Some (VStr "lazy") else None.
Proof.
split; [apply list_elem_of_here|]. split; [reflexivity|].
apply (incompatible_values_only_warn exclusive_queue "x-queue-mode" "lazy").
- apply list_elem_of_here.
- reflexivity.
Defined.
Lemma X15_witness :
("orders", "orders" +:+ "_temp_migrated", -1) ∈ moves (migration (-1) 0)
/\ ((to_log_error, "Error during message transfer. Migration aborted.")
      ∈ lines (migration (-1) 0)
    /\ last (steps (migration (-1) 0))
       = Some (relocation "orders" ("orders" +:+ "_temp_migrated"))
    /\ forall method url,
        request method url ∈ steps (migration (-1) 0) ->
        method = "GET" \/ method = "PUT").
Proof.
split; [vm_compute; apply list_elem_of_here|].
apply (forward_failure_keeps_original_queue (answer healthy) [-1; 0] "%2f"
         "orders" "quorum").
vm_compute. apply list_elem_of_here.
Defined.


Lemma X17_witness :
fetched_bindings
  (trace (answer missing_queue)
         (queue_migrator.migrate_queue "%2f" "orders" "quorum") [])
= None
/\ request "GET" (queue_utils.queue_url "%2f" "orders")
     ∈ steps (trace (answer missing_queue)
                (queue_migrator.migrate_queue "%2f" "orders" "quorum") [])
/\ exists url,
    request "GET" (queue_utils.queue_url "%2f" "orders")
    = request "GET" url.
Proof.
split; [vm_compute; reflexivity|].
split; [vm_compute; apply list_elem_of_here|].
apply (no_change_without_bindings (answer missing_queue) [] "%2f" "orders"
         "quorum").
- vm_compute. reflexivity.
- vm_compute. apply list_elem_of_here.
Defined.


Lemma X19_witness :
queue_utils.queue_url "%2f" "orders" +:+ "?if-empty=true"
  ∈ request_urls "DELETE" (migration 5 5)
/\ exists n body,
    head (moves (migration 5 5))
    = Some ("orders", "orders" +:+ "_temp_migrated", n)
    /\ n <> -1
    /\ head (requests "PUT" [201; 204] (migration 5 5))
       = Some (queue_utils.queue_url "%2f" ("orders" +:+ "_temp_migrated"),
               body, true).
Proof.
split; [vm_compute; apply list_elem_of_here|].
apply (original_deleted_after_forward_move (answer healthy) [5; 5] "%2f"
         "orders" "quorum").
vm_compute. apply list_elem_of_here.
Defined.

Lemma X20_witness :
fetched_queue (migration 5 5)
= Some (classic_queue {[ "x-max-priority" := VNum 10 ]})
/\ (Forall (fun x =>
              x.1.2
              = Some (queue_payload
                        (default true
                           (doc_durable
                              (classic_queue
                                 {[ "x-max-priority" := VNum 10 ]})))
                        (<["x-queue-type" := VStr "quorum"]>
                           (utils.remove_unsupported_keys_value
                              (default ∅
                                 (doc_arguments
                                    (classic_queue
                                       {[ "x-max-priority" := VNum 10 ]})))
                              "quorum").1)))
           (requests "PUT" [201; 204] (migration 5 5))
    /\ (requests "PUT" [201; 204] (migration 5 5)).*1.*1
         `prefix_of`
         [ queue_utils.queue_url "%2f" ("orders" +:+ "_temp_migrated");
           queue_utils.queue_url "%2f" "orders" ]).
Proof.
split; [vm_compute; reflexivity|].
apply (queues_created_with_filtered_arguments (answer healthy) [5; 5]
         "%2f" "orders" "quorum"
         (classic_queue {[ "x-max-priority" := VNum 10 ]})).
vm_compute. reflexivity.
Defined.

Lemma X21_witness :
queue_utils.queue_url "%2f" ("orders" +:+ "_temp_migrated")
  ∈ request_urls "DELETE" (migration 5 5)
/\ exists n body,
    moves (migration 5 5)
    = [ ("orders", "orders" +:+ "_temp_migrated", n);
        ("orders" +:+ "_temp_migrated", "orders", n) ]
    /\ n <> -1
    /\ requests "PUT" [201; 204] (migration 5 5)
       = [ (queue_utils.queue_url "%2f" ("orders" +:+ "_temp_migrated"),
            body, true);
           (queue_utils.queue_url "%2f" "orders", body, true) ]
    /\ request_urls "DELETE" (migration 5 5)
       = [ queue_utils.queue_url "%2f" "orders" +:+ "?if-empty=true";
           queue_utils.queue_url "%2f" ("orders" +:+ "_temp_migrated") ].
Proof.
split; [vm_compute; apply list_elem_of_further, list_elem_of_here|].
apply (temporary_deleted_after_equal_counts (answer healthy) [5; 5] "%2f"
         "orders" "quorum").
vm_compute. apply list_elem_of_further, list_elem_of_here.
Defined.

Lemma X22_witness :
trace interrupted (queue_migrator.migrate_queue "%2f" "orders" "quorum") tt
= [Ev (LogInfo ("===== Starting migration of '" +:+ "orders" +:+ "' to '"
                +:+ "quorum" +:+ "' =====")) (Returned tt)]
  ++ Ev (SendApiRequest queue_json "GET"
           (queue_utils.queue_url "%2f" "orders") queue_utils.auth
           None None)
        (Raised KeyboardInterrupt)
     :: [ Ev (LogError "Migration interrupted by user (Ctrl+C).")
             (Returned tt);
          Ev (Print (newline +:+ Fore_RED
                     +:+ "[Migration interrupted] by user. Investigate manually for cleanup."
                     +:+ Style_RESET_ALL))
             (Returned tt) ]
/\ [Ev (LogInfo ("===== Starting migration of '" +:+ "orders" +:+ "' to '"
                 +:+ "quorum" +:+ "' =====")) (Returned tt)] <> []
/\ raises
     [Ev (LogInfo ("===== Starting migration of '" +:+ "orders" +:+ "' to '"
                   +:+ "quorum" +:+ "' =====")) (Returned tt)]
   = []
/\ (steps
      [ Ev (LogError "Migration interrupted by user (Ctrl+C).")
           (Returned tt);
        Ev (Print (newline +:+ Fore_RED
                   +:+ "[Migration interrupted] by user. Investigate manually for cleanup."
                   +:+ Style_RESET_ALL))
           (Returned tt) ]
    = []
    /\ head (lines
               [ Ev (LogError "Migration interrupted by user (Ctrl+C).")
                    (Returned tt);
                 Ev (Print (newline +:+ Fore_RED
                            +:+ "[Migration interrupted] by user. Investigate manually for cleanup."
                            +:+ Style_RESET_ALL))
                    (Returned tt) ])
       = Some (to_log_error, "Migration interrupted by user (Ctrl+C).")
    /\ (raises
          [ Ev (LogError "Migration interrupted by user (Ctrl+C).")
               (Returned tt);
            Ev (Print (newline +:+ Fore_RED
                       +:+ "[Migration interrupted] by user. Investigate manually for cleanup."
                       +:+ Style_RESET_ALL))
               (Returned tt) ]
        = [] ->
        exists w1,
          run interrupted
              (queue_migrator.migrate_queue "%2f" "orders" "quorum") tt
          = (Returned tt, w1))).
Proof.
split; [reflexivity|]. split; [discriminate|]. split; [reflexivity|].
apply (keyboard_interrupt_is_caught interrupted tt "%2f" "orders" "quorum"
         [Ev (LogInfo ("===== Starting migration of '" +:+ "orders"
                       +:+ "' to '" +:+ "quorum" +:+ "' ====="))
             (Returned tt)]
         _
         (SendApiRequest queue_json "GET"
            (queue_utils.queue_url "%2f" "orders") queue_utils.auth
            None None)
         KeyboardInterrupt
         [ Ev (LogError "Migration interrupted by user (Ctrl+C).")
              (Returned tt);
           Ev (Print (newline +:+ Fore_RED
                      +:+ "[Migration interrupted] by user. Investigate manually for cleanup."
                      +:+ Style_RESET_ALL))
              (Returned tt) ]).
- reflexivity.
- discriminate.
- reflexivity.
Defined.
End more_examples.
